(* ===== verification/_CoqProject ===== *)
-Q . S2P
Prelude.v
Chars.v
PyStr.v
Utf8.v
Regex.v
SreParse.v
ReSub.v
SubLoop.v
SrtPattern.v
Dedup.v
Converter.v
TextIO.v
Driver.v
