(* ===== verification/Prelude.v ===== *)
(** * A verification development for [srt_clean.py]

    The program under study is [src/scripts/.scripts/py/srt_clean.py] of the
    dotfiles repository: a 50-line Python script that turns a SubRip (.srt)
    subtitle file into a one-paragraph transcript.  It has two functions.

    - [srt_to_text(file_path)] (lines 5-26) reads the whole file as UTF-8
      text, deletes every "cue index + timestamp" block with
      [re.sub(r'\d+\n\d{2}:\d{2}:\d{2},\d{3} --> \d{2}:\d{2}:\d{2},\d{3}\n',
      '', content)], splits the rest on ['\n'], keeps the [strip()]ped lines
      that are not empty, drops repeated lines keeping the first occurrence
      (a loop over a Python list with [not in]), and joins the survivors
      with single spaces.
    - [main()] (lines 29-47) checks [len(sys.argv) == 2], calls
      [srt_to_text], derives the output name with
      [input_file.rsplit('.', 1)[0] + '_converted.txt'], writes the text to
      it, and reports [FileNotFoundError] and any other exception on
      standard output.

    ** How the program is modelled

    Python [str] values are lists of Unicode code points ([pystr], i.e.
    [list Z]); file contents are lists of bytes ([list Z] with every
    element in [0, 255], the predicate [Utf8.is_byte]).  The library
    routines the script calls (the [re] engine, [str.strip], [str.split],
    [str.join], [str.rsplit], text-mode [open] with UTF-8) are modelled from
    their CPython behaviour, since their code is not part of the
    repository; the script's own lines are modelled line by line.  Each
    file holds one component, in dependency order:

    - [Prelude] (this file): [pystr], [of_ascii] and [unlines] for literal
      examples, the tactics [case_bool], [len_simpl], [app_norm], the hint
      databases [pystr] and [pystr_rw], and the list lemmas every component
      shares (splitting a list at a separator, filtering, reversal).
    - [Chars]: the character classes of CPython 3.11 / Unicode 14.0 the
      script depends on: [py_isspace] (what [strip()] removes) and
      [is_uni_digit] (what [\d] matches in a [str] pattern, category Nd).
    - [PyStr] (Module [Str]): [strip], [split], [join], [rsplit1] after
      CPython's [stringlib], with their shape and round-trip lemmas.
    - [Utf8] (Module [Utf8]): the strict UTF-8 decoder, whose error is
      CPython's [UnicodeDecodeError] (start, end, byte, reason) with its
      message [decode_error_str], and the encoder ([None] on a surrogate).
    - [Regex] (Module [Sre]): the opcodes the pattern compiles to (LITERAL,
      IN CATEGORY_UNI_DIGIT, greedy REPEAT_ONE) and the matcher
      [sre_match], which, like [_sre], tries repeat counts from the largest
      down; a relational meaning [nodes_match], soundness, completeness and
      greediness of the matcher.
    - [SreParse] (Module [SreParse]): [re.compile] of a pattern source on
      that fragment ([re._parser._parse] and [re._compiler]): literals,
      [\d] and the control escapes, escaped punctuation, the quantifiers
      [* + ? {m,n}], and CPython's errors (nothing to repeat, multiple
      repeat, bad escape, min greater than max, repetition number too
      large, unbalanced parenthesis).
    - [ReSub]: [re.sub] over any matcher meeting the interface
      [MatcherSpec] (a [Class]: matches are non-empty and inside the
      input): the reference scan [sub_aux], one position at a time, and
      [sub_spec], the leftmost non-overlapping replacement as an inductive
      relation, which the scan refines ([sub_refines]); [search], the
      leftmost match from a position.
    - [SubLoop] (Module [Subx]): CPython's [pattern_subx] loop.  One round
      [subx_round] (search from the end of the last match, append the slice
      before the match and the replacement) is read two ways: the fuelled
      loop [subx_loop], with [pattern_subx] (the loop, then [''.join]),
      and the step relation [subx_step] on [loop_state]s ([Run i pieces],
      [Done pieces]).  The loop equals the scan ([pattern_subx_sub]).
    - [SrtPattern] (Module [Srt]): the raw literal of line 11
      ([srt_source]), the matcher [srt_match] of what [re] compiles it to
      (which is [srt_pattern]), what it matches ([srt_block]: digits, newline, timestamp line, newline),
      and the [MatcherSpec] instance for it.
    - [Dedup] (Module [Dedup]): the loop of lines 17-21 as [dedup_loop]
      over any type with decidable equality, its reference [nub], and a
      seen-set ([gset]) variant proved equal to it.
    - [Converter] (Module [Converter]): [srt_to_text_content], lines 9-26 on
      the decoded text, composed as the script composes them; well-formed
      documents as lists of [cue]s and their rendering.
    - [TextIO] (Module [TextIO]): universal-newline translation and
      [read_text], what [open(path, 'r', encoding='utf-8').read()]
      returns.
    - [Driver] (Module [Driver]): the file system as the interface
      [FileStore] with its laws [FileStoreLaws], a [gmap] instance and one
      with directories ([dir_fs]);
      [srt_to_text] with its read, [write_text] (truncate, encode, write),
      [output_path], the [except] clauses [report], [main] from the
      argument vector and a store to an [outcome] (new store, printed
      messages, exit status), the text [print] writes ([stdout_text]),
      the [__main__] guard ([module_main]), and [runs], repeated runs of the
      script on one file system as a step relation.

    ** What the theorems show

    - End to end: on a well-formed document [srt_to_text] returns the first
      occurrences of the stripped text lines joined by spaces
      ([Converter.srt_to_text_cues]); [main] then writes the UTF-8 encoding
      of that text to [output_path p], which reads back as the text, and
      changes nothing else ([Driver.main_success]); CRLF and CR files give
      the LF result ([Driver.srt_to_text_any_eol]); the output is one
      paragraph ([Converter.srt_to_text_paragraph]).
    - Components: the compiled pattern matches exactly the blocks
      ([Srt.srt_match_spec]); the matcher is sound, complete and greedy;
      [re.sub] refines its leftmost non-overlapping specification, and
      CPython's loop computes the same scan ([Subx.pattern_subx_sub]); the
      de-duplication returns a duplicate-free subsequence with the same
      elements, keeps first occurrences, and equals the seen-set variant;
      the UTF-8 decoder is canonical, inverts the encoder, and reports
      errors at a position before which the input decodes.
    - [main]'s other branches: usage (status 1), missing file, undecodable
      input with CPython's message, an output path that cannot be opened;
      it prints at most one line; the output name and the fact that it
      never equals the input.
    - Boundary: an empty or whitespace-only file converts to the empty
      string ([Converter.srt_to_text_blank]).
    - Invariants: every state of the [re.sub] loop reachable from its
      start satisfies the loop invariant ([Subx.subx_reachable_inv], by
      induction on the reachability relation); over any sequence of runs,
      a file whose name does not end in [_converted.txt] never changes
      ([Driver.runs_preserve_inputs]); a second run with the same argument
      changes no file ([Driver.main_rerun]).
    - Bounds: the output text is never longer than the input, and the
      output file never larger in bytes than the input file.
    - Behaviours the modelling exposed: the pattern is not anchored, so
      digits ending a text line are taken for an index and the text is glued
      to the next line ([Srt.sub_glues_index]); a byte order mark is
      kept, written back at the head of the output and defeats
      de-duplication ([Driver.main_keeps_bom]); an index with trailing
      whitespace is not removed ([Srt.sub_keeps_spaced_index]); the output
      name uses the last dot of the whole path
      ([Driver.output_path_last_dot]).

    ** Bounds and termination

    The functions are structurally recursive: the matcher on the pattern
    and on the repeat count, the reference scan on the input, the decoder
    on the byte list.  Three take fuel: CPython's [re.sub] loop, given one
    round more than the input's length (each round consumes a non-empty
    match, so that is enough: [Subx.subx_loop_sub] shows the loop returns
    with that fuel), the pattern parser [SreParse.parse_seq], given one
    round more than the source's length (each round reads at least one
    character: [parse_seq_fuel] shows more fuel changes nothing), and the
    decimal formatting of a number [n], given [n + 1] digits.  Code points
    are unbounded integers constrained by [Utf8.scalar] where it matters
    (the decoder only produces scalar values, the encoder succeeds exactly
    on them).

    ** What is not modelled

    The interpreter itself; the text of [str(e)] for an [OSError] in the
    generic message, which comes from the platform's [strerror] (the
    message of a [UnicodeDecodeError] is modelled).  File-system failures
    other than a missing file are the single value [Driver.OSError];
    symbolic and hard links are not modelled (distinct paths are distinct
    files).
    Regular-expression features the pattern does not use (alternation,
    groups, classes, [.], anchors, lazy and possessive repeats, flags, the
    other escapes) are not part of [Sre]: [SreParse] returns [Unsupported]
    for them; the forms of [str.strip], [str.split] and [str.rsplit] the
    script does not call are not modelled; [re.sub]'s
    treatment of empty matches is not modelled, and [ReSub] requires a
    matcher that never matches the empty string, which [SrtPattern] proves
    of the script's pattern.
*)

From Stdlib Require Import ZArith Ascii String.
From stdpp Require Import base list.

(** ** Python strings *)

(** A Python [str] is a sequence of code points. *)
Abbreviation pystr := (list Z).

Declare Scope pystr_scope.
Delimit Scope pystr_scope with py.

(** Literal strings of the examples: an ASCII Rocq string as code points. *)
Definition of_ascii (s : string) : pystr :=
  map (fun a => Z.of_N (N_of_ascii a)) (list_ascii_of_string s).

(** Lines joined with a newline after each one: a text file's content. *)
Definition unlines (ls : list string) : pystr :=
  concat (map (fun l => of_ascii l ++ [10%Z]) ls).

(** ** Tactics *)

(** Split the boolean tests of the model into their propositional cases. *)
Ltac case_bool :=
  match goal with
  | |- context [Z.eqb ?a ?b] => destruct (Z.eqb_spec a b)
  | |- context [Nat.ltb ?a ?b] => destruct (Nat.ltb_spec a b)
  | |- context [Nat.leb ?a ?b] => destruct (Nat.leb_spec a b)
  end.

(** Push [length] through appends and conses. *)
Ltac len_simpl := repeat progress (rewrite ?length_app; cbn [length] in * ).

(** Reassociate appends to the right and push conses out of them. *)
Ltac app_norm := repeat progress (rewrite <- ?app_assoc in *; cbn [app] in * ).

Create HintDb pystr discriminated.

(** ** Generic list lemmas *)

Section ListLemmas.
Context {A : Type}.

Lemma app_cons_assoc (l1 l2 : list A) (x : A) :
  l1 ++ x :: l2 = (l1 ++ [x]) ++ l2.
Proof. by rewrite <- app_assoc. Qed.

(** Two decompositions of one list at a first element outside [P]: the
    parts before, the elements and the parts after are the same. *)
Lemma app_first_unique (P : A -> Prop) (u1 u2 w1 w2 : list A) (x y : A) :
  ~ P x -> ~ P y -> Forall P u1 -> Forall P u2 ->
  u1 ++ x :: w1 = u2 ++ y :: w2 -> u1 = u2 /\ x = y /\ w1 = w2.
Proof.
  intros Hx Hy. revert u2. induction u1 as [|a u1 IH]; intros u2 H1 H2 Heq;
    destruct u2 as [|b u2]; simpl in *; simplify_eq.
  - done.
  - by inv H2.
  - by inv H1.
  - inv H1; inv H2. destruct (IH u2) as (-> & -> & ->); done.
Qed.

(** Two decompositions of one list around a separator that the first
    parts do not contain are the same decomposition. *)
Lemma app_sep_unique (P : A -> Prop) (u1 u2 w1 w2 : list A) (x : A) :
  ~ P x -> Forall P u1 -> Forall P u2 ->
  u1 ++ x :: w1 = u2 ++ x :: w2 -> u1 = u2 /\ w1 = w2.
Proof. intros Hx H1 H2 Heq. by destruct (app_first_unique P u1 u2 w1 w2 x x) as (? & _ & ?). Qed.

(** Filtering with a predicate every element satisfies changes nothing. *)
Lemma filter_id (P : A -> Prop) `{!forall x, Decision (P x)} (l : list A) :
  Forall P l -> filter P l = l.
Proof. induction 1; simpl; [done|]. rewrite filter_cons_True; [f_equal|]; done. Qed.
Lemma not_elem_of_Forall_neq (x : A) (l : list A) : x ∉ l -> Forall (fun y => y <> x) l.
Proof. intros Hx. apply Forall_forall. intros y Hy ->. done. Qed.

(** The same with the separator-free parts on the right. *)
Lemma app_sep_unique_r (P : A -> Prop) (u1 u2 w1 w2 : list A) (x : A) :
  ~ P x -> Forall P w1 -> Forall P w2 ->
  u1 ++ x :: w1 = u2 ++ x :: w2 -> u1 = u2 /\ w1 = w2.
Proof.
  intros Hx H1 H2 Heq. apply (f_equal (@rev A)) in Heq. rewrite !rev_app_distr in Heq.
  simpl in Heq. rewrite <- !app_assoc in Heq. simpl in Heq.
  destruct (app_sep_unique P (rev w1) (rev w2) (rev u1) (rev u2) x) as [E1 E2];
    [done|by apply Forall_rev|by apply Forall_rev|done|].
  split; [rewrite <- (rev_involutive u1), E2|rewrite <- (rev_involutive w1), E1];
    apply rev_involutive.
Qed.

(** A sum over a subsequence is at most the sum over the list. *)
Lemma sublist_sum_le (f : A -> nat) (l1 l2 : list A) :
  l1 `sublist_of` l2 -> sum_list (map f l1) <= sum_list (map f l2).
Proof. induction 1; simpl; lia. Qed.

Lemma elem_of_rev (x : A) (l : list A) : x ∈ rev l <-> x ∈ l.
Proof. rewrite !list_elem_of_In. split; [apply in_rev|apply in_rev]. Qed.
End ListLemmas.

(** ** Weights of strings *)

(** The total of a per-code-point weight: the length for the weight 1,
    the size in bytes for the length of each code point's encoding. *)
Definition weight (w : Z -> nat) (s : pystr) : nat := sum_list (map w s).

Lemma weight_app (w : Z -> nat) (a b : pystr) : weight w (a ++ b) = weight w a + weight w b.
Proof. unfold weight. rewrite map_app. induction a; simpl; lia. Qed.

Lemma weight_sublist (w : Z -> nat) (a b : pystr) : a `sublist_of` b -> weight w a <= weight w b.
Proof. apply sublist_sum_le. Qed.

Lemma weight_one (s : pystr) : weight (fun _ => 1) s = length s.
Proof. unfold weight. induction s; simpl; lia. Qed.

Create Rewrite HintDb pystr_rw.
#[export] Hint Rewrite @length_app @app_nil_r @take_app_length @drop_app_length : pystr_rw.
