(* ===== verification/Chars.v ===== *)
(** * Character classes of Python [str]

    The two character predicates the script depends on, as CPython 3.11
    (Unicode 14.0.0) defines them:
    - [py_isspace]: [str.isspace()] on one code point
      ([_PyUnicode_IsWhitespace]); [str.strip()] with no argument removes
      exactly these code points;
    - [is_uni_digit]: the class [\d] of a [str] pattern in [re]
      ([SRE_CATEGORY_UNI_DIGIT], i.e. [Py_UNICODE_ISDECIMAL]: general category
      Nd).
    The tables are those of the interpreter's [unicodedata] module.  The
    lemmas below give the ASCII facts the rest of the development uses. *)

From Stdlib Require Import ZArith.
From stdpp Require Import base list.
From S2P Require Import Prelude.

Local Open Scope Z_scope.

(** ** Whitespace *)

(** Code points [c] with [chr(c).isspace()]. *)
Definition whitespace_table : list Z := [
    0x9; 0xA; 0xB; 0xC; 0xD; 0x1C; 0x1D; 0x1E;
    0x1F; 0x20; 0x85; 0xA0; 0x1680; 0x2000; 0x2001; 0x2002;
    0x2003; 0x2004; 0x2005; 0x2006; 0x2007; 0x2008; 0x2009; 0x200A;
    0x2028; 0x2029; 0x202F; 0x205F; 0x3000
  ].

Definition py_isspace (c : Z) : bool := existsb (Z.eqb c) whitespace_table.

(** ** Decimal digits *)

(** The maximal runs of code points of general category Nd, as closed
    intervals. *)
Definition digit_ranges : list (Z * Z) := [
    (0x30, 0x39); (0x660, 0x669); (0x6F0, 0x6F9); (0x7C0, 0x7C9);
    (0x966, 0x96F); (0x9E6, 0x9EF); (0xA66, 0xA6F); (0xAE6, 0xAEF);
    (0xB66, 0xB6F); (0xBE6, 0xBEF); (0xC66, 0xC6F); (0xCE6, 0xCEF);
    (0xD66, 0xD6F); (0xDE6, 0xDEF); (0xE50, 0xE59); (0xED0, 0xED9);
    (0xF20, 0xF29); (0x1040, 0x1049); (0x1090, 0x1099); (0x17E0, 0x17E9);
    (0x1810, 0x1819); (0x1946, 0x194F); (0x19D0, 0x19D9); (0x1A80, 0x1A89);
    (0x1A90, 0x1A99); (0x1B50, 0x1B59); (0x1BB0, 0x1BB9); (0x1C40, 0x1C49);
    (0x1C50, 0x1C59); (0xA620, 0xA629); (0xA8D0, 0xA8D9); (0xA900, 0xA909);
    (0xA9D0, 0xA9D9); (0xA9F0, 0xA9F9); (0xAA50, 0xAA59); (0xABF0, 0xABF9);
    (0xFF10, 0xFF19); (0x104A0, 0x104A9); (0x10D30, 0x10D39); (0x11066, 0x1106F);
    (0x110F0, 0x110F9); (0x11136, 0x1113F); (0x111D0, 0x111D9); (0x112F0, 0x112F9);
    (0x11450, 0x11459); (0x114D0, 0x114D9); (0x11650, 0x11659); (0x116C0, 0x116C9);
    (0x11730, 0x11739); (0x118E0, 0x118E9); (0x11950, 0x11959); (0x11C50, 0x11C59);
    (0x11D50, 0x11D59); (0x11DA0, 0x11DA9); (0x16A60, 0x16A69); (0x16AC0, 0x16AC9);
    (0x16B50, 0x16B59); (0x1D7CE, 0x1D7FF); (0x1E140, 0x1E149); (0x1E2F0, 0x1E2F9);
    (0x1E950, 0x1E959); (0x1FBF0, 0x1FBF9)
  ].

Definition in_range (c : Z) (r : Z * Z) : bool := (r.1 <=? c) && (c <=? r.2).

Definition is_uni_digit (c : Z) : bool := existsb (in_range c) digit_ranges.

(** ** Facts about the tables *)

Lemma existsb_in_range_below (c : Z) (rs : list (Z * Z)) :
  Forall (fun r => c < r.1) rs -> existsb (in_range c) rs = false.
Proof.
  induction 1 as [|r rs Hr _ IH]; [done|].
  simpl. rewrite IH, orb_false_r. unfold in_range.
  apply andb_false_intro1, Z.leb_gt. lia.
Qed.

(** Below U+0080, [\d] matches exactly the ASCII digits ['0'..'9']. *)
Lemma is_uni_digit_ascii (c : Z) :
  c < 128 -> is_uni_digit c = true <-> 48 <= c <= 57.
Proof.
  intros Hc. unfold is_uni_digit.
  replace digit_ranges with ((48, 57) :: tail digit_ranges) by reflexivity.
  cbn [existsb]. rewrite existsb_in_range_below.
  - rewrite orb_false_r. unfold in_range. simpl.
    rewrite andb_true_iff, !Z.leb_le. lia.
  - repeat constructor; simpl; lia.
Qed.

(** Below U+0080, [str.isspace()] holds of TAB, LF, VT, FF, CR, the four
    information separators U+001C..U+001F and SPACE. *)
Lemma py_isspace_ascii (c : Z) :
  c < 128 -> py_isspace c = true <-> (9 <= c <= 13 \/ 28 <= c <= 32).
Proof.
  intros Hc. unfold py_isspace. rewrite existsb_exists.
  split.
  - intros (x & Hx & Heq). apply Z.eqb_eq in Heq. subst x.
    simpl in Hx. lia.
  - intros H. exists c. split; [|apply Z.eqb_refl].
    simpl. lia.
Qed.

(** No whitespace code point is a decimal digit. *)
Lemma isspace_not_digit (c : Z) :
  py_isspace c = true -> is_uni_digit c = false.
Proof.
  unfold py_isspace. rewrite existsb_exists.
  intros (x & Hx & Heq). apply Z.eqb_eq in Heq. subst x.
  repeat (destruct Hx as [<-|Hx]; [reflexivity|]). done.
Qed.

Lemma newline_not_digit : is_uni_digit 10 = false.
Proof. reflexivity. Qed.

Lemma newline_isspace : py_isspace 10 = true.
Proof. reflexivity. Qed.

#[export] Hint Resolve isspace_not_digit newline_not_digit newline_isspace : pystr.
