(* ===== verification/PyStr.v ===== *)
(** * The [str] methods the script calls

    [str.strip()], [str.split(sep)] with a one-character separator,
    [sep.join(xs)] and [str.rsplit(sep, 1)], modelled from CPython's
    [Objects/stringlib] ([do_strip], [split_char], [rsplit_char],
    [stringlib_join]).  The lemmas give their shape: what [strip] removes,
    that [join] undoes [split], and how [split] distributes over a
    separator. *)

From Stdlib Require Import ZArith.
From stdpp Require Import base list.
From S2P Require Import Prelude Chars.

Module Str.

(** ** [str.strip()] *)

(** Leading code points with [isspace()] removed: the first loop of
    [do_strip]. *)
Fixpoint lstrip (s : pystr) : pystr :=
  match s with
  | [] => []
  | c :: t => if py_isspace c then lstrip t else s
  end.

(** [do_strip(self, BOTHSTRIP)]: [s[i:j]] with [i] past the leading and [j]
    before the trailing whitespace; the trailing scan is [lstrip] of the
    reversed string. *)
Definition strip (s : pystr) : pystr := rev (lstrip (rev (lstrip s))).

(** ** [str.split(sep)] *)

(** [split_char] with no limit: the pieces between occurrences of [sep];
    there is always one more piece than there are separators. *)
Fixpoint split (sep : Z) (s : pystr) : list pystr :=
  match s with
  | [] => [[]]
  | c :: t =>
      if Z.eqb c sep then [] :: split sep t
      else match split sep t with
           | [] => [[c]]
           | p :: ps => (c :: p) :: ps
           end
  end.

(** ** [sep.join(xs)] *)

Fixpoint join (sep : pystr) (xs : list pystr) : pystr :=
  match xs with
  | [] => []
  | [x] => x
  | x :: xs' => x ++ sep ++ join sep xs'
  end.

(** ** [str.rsplit(sep, 1)] *)

(** The text before and after the first occurrence of [sep]. *)
Fixpoint break_at (sep : Z) (s : pystr) : option (pystr * pystr) :=
  match s with
  | [] => None
  | c :: t =>
      if Z.eqb c sep then Some ([], t)
      else match break_at sep t with
           | Some (a, b) => Some (c :: a, b)
           | None => None
           end
  end.

(** [rsplit_char] with [maxcount = 1]: split at the last occurrence; a
    string without [sep] is returned whole, as a one-element list. *)
Definition rsplit1 (sep : Z) (s : pystr) : list pystr :=
  match break_at sep (rev s) with
  | None => [s]
  | Some (a, b) => [rev b; rev a]
  end.

(** ** Lemmas on [strip] *)

Definition is_space (c : Z) : Prop := py_isspace c = true.

Lemma lstrip_shape (s : pystr) :
  exists l, s = l ++ lstrip s /\ Forall is_space l.
Proof.
  induction s as [|c t (l & Hl & Hsp)]; simpl; [by exists []|].
  destruct (py_isspace c) eqn:Hc.
  - exists (c :: l). split; [simpl; by rewrite <- Hl|by constructor].
  - by exists [].
Qed.

Lemma lstrip_head (s : pystr) c t :
  lstrip s = c :: t -> py_isspace c = false.
Proof.
  induction s as [|d s IH]; simpl; [done|].
  destruct (py_isspace d) eqn:Hd; [done|]. by intros [= -> _].
Qed.

Lemma lstrip_nil_iff (s : pystr) : lstrip s = [] <-> Forall is_space s.
Proof.
  induction s as [|c t IH]; simpl; [split; auto|].
  destruct (py_isspace c) eqn:Hc.
  - rewrite IH. split; [by constructor|by inversion 1].
  - split; [done|]. inversion 1; unfold is_space in *; congruence.
Qed.

Lemma lstrip_id (s : pystr) :
  (forall c t, s = c :: t -> py_isspace c = false) -> lstrip s = s.
Proof. destruct s as [|c t]; simpl; [done|]. intros H. by rewrite (H c t). Qed.

Lemma lstrip_app_space (l s : pystr) :
  Forall is_space l -> lstrip (l ++ s) = lstrip s.
Proof. induction 1 as [|c l Hc _ IH]; simpl; [done|]. by rewrite Hc. Qed.

(** [strip s] is [s] with a whitespace prefix and a whitespace suffix cut
    off. *)
Lemma strip_shape (s : pystr) :
  exists l r, s = l ++ strip s ++ r /\ Forall is_space l /\ Forall is_space r.
Proof.
  destruct (lstrip_shape s) as (l & Hl & Hsl).
  destruct (lstrip_shape (rev (lstrip s))) as (r & Hr & Hsr).
  exists l, (rev r). split; [|split; [done|by apply Forall_rev]].
  rewrite Hl at 1. f_equal. unfold strip.
  rewrite <- rev_app_distr, <- Hr, rev_involutive. done.
Qed.

(** A stripped string is empty exactly when the string is all
    whitespace. *)
Lemma strip_nil_iff (s : pystr) : strip s = [] <-> Forall is_space s.
Proof.
  unfold strip. split.
  - intros H. apply (f_equal (@rev Z)) in H. rewrite rev_involutive in H.
    simpl in H. apply lstrip_nil_iff in H. apply Forall_rev in H.
    rewrite rev_involutive in H.
    destruct (lstrip_shape s) as (l & -> & Hl). apply Forall_app; split; done.
  - intros H. apply lstrip_nil_iff in H. by rewrite H.
Qed.

(** A string that starts with a non-whitespace code point keeps it at the
    head of its stripped form. *)
Lemma strip_cons_nonspace (c : Z) (t : pystr) :
  py_isspace c = false -> exists q, strip (c :: t) = c :: q.
Proof.
  intros Hc. destruct (strip_shape (c :: t)) as (l & r & Heq & Hl & _).
  destruct l as [|d l]; [|inv Hl; simpl in Heq; simplify_eq; unfold is_space in *; congruence].
  destruct (strip (c :: t)) as [|d q] eqn:Hs.
  - apply strip_nil_iff in Hs. inv Hs. unfold is_space in *. congruence.
  - simpl in Heq. injection Heq as -> _. by exists q.
Qed.

(** A non-empty stripped string starts and ends with a non-whitespace code
    point. *)
Lemma strip_ends (s : pystr) c t :
  strip s = c :: t ->
  py_isspace c = false /\ (forall u d, c :: t = u ++ [d] -> py_isspace d = false).
Proof.
  unfold strip. intros H. split.
  - destruct (lstrip_shape (rev (lstrip s))) as (l & Hl & _).
    apply (f_equal (@rev Z)) in Hl. rewrite rev_involutive, rev_app_distr in Hl.
    rewrite H in Hl. simpl in Hl. by apply lstrip_head in Hl.
  - intros u d Hud. rewrite <- H in Hud.
    apply (f_equal (@rev Z)) in Hud. rewrite rev_involutive, rev_app_distr in Hud.
    simpl in Hud. by apply lstrip_head in Hud.
Qed.

(** A string with no whitespace at either end is its own [strip]. *)
Lemma strip_id (s : pystr) :
  (forall c t, s = c :: t -> py_isspace c = false) ->
  (forall u d, s = u ++ [d] -> py_isspace d = false) ->
  strip s = s.
Proof.
  intros Hh Ht. unfold strip. rewrite (lstrip_id s Hh).
  rewrite lstrip_id; [apply rev_involutive|].
  intros c t Hct. apply (f_equal (@rev Z)) in Hct.
  rewrite rev_involutive in Hct. simpl in Hct. by apply (Ht (rev t)).
Qed.

(** ** Lemmas on [split] and [join] *)

Lemma split_not_nil (sep : Z) (s : pystr) : split sep s <> [].
Proof.
  destruct s as [|c t]; simpl; [done|].
  case_bool; [done|]. by destruct (split sep t).
Qed.

(** Splitting a string that does not start with the separator: the first
    piece starts with its first code point. *)
Lemma split_cons_nonsep (sep c : Z) (t : pystr) :
  c <> sep -> exists p ps, split sep (c :: t) = (c :: p) :: ps.
Proof.
  intros Hc. simpl. rewrite (proj2 (Z.eqb_neq c sep) Hc).
  pose proof (split_not_nil sep t). destruct (split sep t) as [|p ps]; [done|]. by exists p, ps.
Qed.

(** A string without the separator is one piece. *)
Lemma split_no_sep (sep : Z) (s : pystr) : sep ∉ s -> split sep s = [s].
Proof.
  induction s as [|c t IH]; simpl; intros Hn; [done|].
  rewrite elem_of_cons in Hn. case_bool; [subst; tauto|].
  rewrite IH; [done|tauto].
Qed.

(** Splitting distributes over an occurrence of the separator. *)
Lemma split_app_sep (sep : Z) (a b : pystr) :
  split sep (a ++ sep :: b) = split sep a ++ split sep b.
Proof.
  induction a as [|c a IH]; simpl.
  - by rewrite Z.eqb_refl.
  - rewrite IH. case_bool; [done|].
    destruct (split sep a) as [|p ps] eqn:Ha; [by apply split_not_nil in Ha|]. done.
Qed.

(** Every piece is free of the separator. *)
Lemma split_pieces (sep : Z) (s : pystr) : Forall (fun p => sep ∉ p) (split sep s).
Proof.
  induction s as [|c t IH]; simpl.
  - constructor; [apply not_elem_of_nil|constructor].
  - case_bool; [constructor; [apply not_elem_of_nil|done]|].
    destruct (split sep t) as [|p ps] eqn:Ht; [by apply split_not_nil in Ht|].
    apply Forall_cons in IH as [Hp Hps].
    constructor; [|done]. rewrite elem_of_cons. intros [->|Hin]; done.
Qed.

Lemma join_cons (sep x : pystr) (xs : list pystr) :
  xs <> [] -> join sep (x :: xs) = x ++ sep ++ join sep xs.
Proof. by destruct xs. Qed.

Lemma join_app (sep : pystr) (xs ys : list pystr) :
  xs <> [] -> ys <> [] -> join sep (xs ++ ys) = join sep xs ++ sep ++ join sep ys.
Proof.
  intros Hx Hy. induction xs as [|x xs IH]; [done|].
  destruct xs as [|x' xs].
  - simpl. by apply join_cons.
  - rewrite <- app_comm_cons, !join_cons by (try done; by destruct xs).
    rewrite IH by done. by rewrite !app_assoc.
Qed.

(** [join] undoes [split]: the round trip of line 15 with line 24's
    separator replaced by the one [split] removed. *)
Lemma join_split (sep : Z) (s : pystr) : join [sep] (split sep s) = s.
Proof.
  induction s as [|c t IH]; simpl; [done|].
  case_bool.
  - subst. destruct (split sep t) as [|p ps] eqn:Ht; [by apply split_not_nil in Ht|].
    simpl in *. by rewrite IH.
  - destruct (split sep t) as [|p ps] eqn:Ht; [by apply split_not_nil in Ht|].
    destruct ps; simpl in *; by rewrite IH.
Qed.

(** The length of a join: the pieces plus one separator between each two. *)
Lemma join_length (sep : pystr) (xs : list pystr) :
  length (join sep xs) =
  sum_list (map length xs) + length sep * pred (length xs).
Proof.
  induction xs as [|x [|y xs] IH]; simpl; [done|lia|].
  rewrite !length_app. simpl in IH. rewrite IH. lia.
Qed.

(** The weight of a join: the pieces plus one separator between each two. *)
Lemma join_weight (w : Z -> nat) (sep : pystr) (xs : list pystr) :
  weight w (join sep xs) = sum_list (map (weight w) xs) + weight w sep * pred (length xs).
Proof.
  induction xs as [|x [|y xs] IH]; simpl; [done|lia|].
  rewrite !weight_app. simpl in IH. rewrite IH. lia.
Qed.

(** Stripping never adds weight. *)
Lemma strip_weight (w : Z -> nat) (s : pystr) : weight w (strip s) <= weight w s.
Proof.
  destruct (strip_shape s) as (l & r & Hs & _). rewrite Hs at 2. rewrite !weight_app. lia.
Qed.

(** Every code point of a join comes from the separator or from a piece. *)
Lemma join_elem_of (sep : pystr) (xs : list pystr) (x : Z) :
  x ∈ join sep xs -> x ∈ sep \/ Exists (fun p => x ∈ p) xs.
Proof.
  induction xs as [|p [|q xs] IH]; simpl; [by rewrite elem_of_nil|by eauto|].
  rewrite !elem_of_app. intros [Hp|[Hs|Hr]]; [by eauto|by eauto|].
  destruct (IH Hr) as [?|Hex]; [by eauto|]. right. by apply Exists_cons; right.
Qed.

(** A join starts with the first code point of its first piece. *)
Lemma join_head (sep : pystr) (xs : list pystr) (c : Z) (t : pystr) :
  exists r, join sep ((c :: t) :: xs) = c :: r.
Proof. destruct xs; simpl; eauto. Qed.

(** A join ends with the last code point of its last piece. *)
Lemma join_last (sep : pystr) (xs : list pystr) (u : pystr) (d : Z) :
  exists r, join sep (xs ++ [u ++ [d]]) = r ++ [d].
Proof.
  destruct xs as [|x xs]; [simpl; by eexists|].
  rewrite (join_app sep (x :: xs) [u ++ [d]]) by done. cbn [join].
  exists (join sep (x :: xs) ++ sep ++ u). by rewrite <- !app_assoc.
Qed.

(** Every code point of [strip s] is one of [s]. *)
Lemma strip_elem_of (s : pystr) (x : Z) : x ∈ strip s -> x ∈ s.
Proof.
  destruct (strip_shape s) as (l & r & Hs & _). intros Hx. rewrite Hs.
  rewrite !elem_of_app. tauto.
Qed.

(** Every code point of a piece of [split] is one of the string. *)
Lemma split_elem_of (sep : Z) (s : pystr) (x : Z) :
  forall p, p ∈ split sep s -> x ∈ p -> x ∈ s.
Proof.
  induction s as [|c t IH]; intros p; simpl.
  - rewrite list_elem_of_singleton. intros -> Hx. by apply not_elem_of_nil in Hx.
  - rewrite elem_of_cons. case_bool.
    + intros Hp Hx. rewrite elem_of_cons in Hp. right.
      destruct Hp as [->|Hp]; [by apply not_elem_of_nil in Hx|by apply (IH p)].
    + destruct (split sep t) as [|q ps] eqn:Ht; [by apply split_not_nil in Ht|].
      rewrite elem_of_cons. intros [->|Hp] Hx.
      * apply elem_of_cons in Hx as [->|Hx]; [by left|right; apply (IH q); [by left|done]].
      * right. apply (IH p); [by right|done].
Qed.

(** ** Lemmas on [rsplit] *)

Lemma break_at_none (sep : Z) (s : pystr) : break_at sep s = None -> sep ∉ s.
Proof.
  induction s as [|c t IH]; simpl; [intros; apply not_elem_of_nil|].
  case_bool; [done|]. destruct (break_at sep t) as [[a b]|]; [done|].
  intros _. rewrite elem_of_cons. intros [->|?]; [done|by apply IH].
Qed.

Lemma break_at_some (sep : Z) (s a b : pystr) :
  break_at sep s = Some (a, b) -> s = a ++ sep :: b /\ sep ∉ a.
Proof.
  revert a. induction s as [|c t IH]; intros a; simpl; [done|].
  case_bool.
  - intros [= <- <-]. subst. split; [done|apply not_elem_of_nil].
  - destruct (break_at sep t) as [[a' b']|] eqn:Ht; [|done]. intros [= <- <-].
    destruct (IH a' eq_refl) as [-> Ha']. split; [done|].
    rewrite elem_of_cons. intros [->|?]; done.
Qed.

(** [s.rsplit(sep, 1)] is [[s]] when [sep] does not occur, and otherwise
    the parts before and after the last occurrence. *)
Lemma rsplit1_spec (sep : Z) (s : pystr) :
  (rsplit1 sep s = [s] /\ sep ∉ s) \/
  exists a b, rsplit1 sep s = [a; b] /\ s = a ++ sep :: b /\ sep ∉ b.
Proof.
  unfold rsplit1. destruct (break_at sep (rev s)) as [[a b]|] eqn:Hb.
  - right. exists (rev b), (rev a). split; [done|].
    apply break_at_some in Hb as [Hs Ha].
    rewrite <- (rev_involutive s), Hs, rev_app_distr. simpl. rewrite <- app_assoc.
    split; [done|]. by rewrite elem_of_rev.
  - left. split; [done|]. apply break_at_none in Hb. by rewrite elem_of_rev in Hb.
Qed.

End Str.
