(* ===== verification/Utf8.v ===== *)
(** * The UTF-8 codec ([encoding='utf-8'])

    CPython's strict UTF-8 decoder and encoder, which line 6 ([open(...,
    'r', encoding='utf-8')]) and lines 41-42 ([open(..., 'w',
    encoding='utf-8')] and [write]) use.  Bytes are integers in [0, 255]
    ([is_byte]); code points are integers, the valid ones the scalar values
    ([scalar]).

    - [utf8_decode]: the decoder of [Objects/stringlib/codecs.h]: shortest
      forms only, no surrogates, nothing above U+10FFFF.  An error is the
      [UnicodeDecodeError] CPython raises: [start], [end], the reason, and
      the byte at [start], which [decode_error_str] prints as [str(e)].
    - [utf8_encode]: the encoder, [None] on a surrogate.

    The theorems: a successful decode is canonical and yields scalar
    values; encoding then decoding gives the text back; an error lies
    inside the input, after a prefix that decodes, and is classified as
    CPython classifies it; the position printed in the message reads back
    as the error's start. *)

From Stdlib Require Import ZArith String.
From stdpp Require Import base list.
From S2P Require Import Prelude.

Local Open Scope Z_scope.

Module Utf8.

(** ** Code points *)

Definition is_surrogate (c : Z) : bool := (0xD800 <=? c) && (c <=? 0xDFFF).

(** A Unicode scalar value: what the decoder can produce. *)
Definition scalar (c : Z) : Prop := 0 <= c <= 0x10FFFF /\ is_surrogate c = false.

(** A byte read from a file. *)
Definition is_byte (b : Z) : Prop := 0 <= b <= 255.

(** ** Decoding errors *)

Inductive decode_reason : Type :=
| InvalidStartByte
| InvalidContinuationByte
| UnexpectedEndOfData.

(** The fields of [UnicodeDecodeError] the message uses: [start], [end]
    (exclusive), the byte [object[start]] and [reason]. *)
Record decode_error : Type := {
  err_start : nat;
  err_end : nat;
  err_byte : Z;
  err_reason : decode_reason
}.

(** The error for a sequence that starts with [b0] at [pos] and whose
    following bytes must pass [tests]: it spans [b0] and the bytes that
    pass ([k] counts them with [b0]), and it is an unexpected end of data
    when the input runs out before a byte fails its test. *)
Fixpoint seq_error (pos k : nat) (b0 : Z) (tests : list (Z -> bool)) (r : list Z)
    : decode_error :=
  match tests, r with
  | t :: ts, b :: r' =>
      if t b then seq_error pos (S k) b0 ts r'
      else {| err_start := pos; err_end := pos + k; err_byte := b0;
              err_reason := InvalidContinuationByte |}
  | _ :: _, [] =>
      {| err_start := pos; err_end := pos + k; err_byte := b0;
         err_reason := UnexpectedEndOfData |}
  | [], _ =>
      {| err_start := pos; err_end := pos + k; err_byte := b0;
         err_reason := InvalidContinuationByte |}
  end.

(** ** The decoder *)

Definition in_rng (lo hi b : Z) : bool := (lo <=? b) && (b <=? hi).

(** A continuation byte [10xxxxxx]. *)
Definition cont (b : Z) : bool := in_rng 0x80 0xBF b.

(** The admissible second bytes after E0..EF and F0..F4: they exclude
    overlong forms, surrogates and code points above U+10FFFF (Table 3-7
    of the Unicode standard, which CPython's decoder follows). *)
Definition second3 (b0 : Z) : Z -> bool :=
  in_rng (if b0 =? 0xE0 then 0xA0 else 0x80) (if b0 =? 0xED then 0x9F else 0xBF).

Definition second4 (b0 : Z) : Z -> bool :=
  in_rng (if b0 =? 0xF0 then 0x90 else 0x80) (if b0 =? 0xF4 then 0x8F else 0xBF).

Definition cons_ok (c : Z) (r : decode_error + pystr) : decode_error + pystr :=
  match r with
  | inr s => inr (c :: s)
  | inl e => inl e
  end.

(** [pos] is the offset of [bs] in the whole input. *)
Fixpoint utf8_decode_from (pos : nat) (bs : list Z) : decode_error + pystr :=
  match bs with
  | [] => inr []
  | b0 :: r0 =>
      if b0 <? 0x80 then cons_ok b0 (utf8_decode_from (S pos) r0)
      else if in_rng 0xC2 0xDF b0 then
        match r0 with
        | b1 :: r1 =>
            if cont b1
            then cons_ok ((b0 - 0xC0) * 64 + (b1 - 0x80)) (utf8_decode_from (pos + 2)%nat r1)
            else inl (seq_error pos 1 b0 [cont] r0)
        | [] => inl (seq_error pos 1 b0 [cont] r0)
        end
      else if in_rng 0xE0 0xEF b0 then
        match r0 with
        | b1 :: b2 :: r2 =>
            if second3 b0 b1 && cont b2
            then cons_ok ((b0 - 0xE0) * 4096 + (b1 - 0x80) * 64 + (b2 - 0x80))
                         (utf8_decode_from (pos + 3)%nat r2)
            else inl (seq_error pos 1 b0 [second3 b0; cont] r0)
        | _ => inl (seq_error pos 1 b0 [second3 b0; cont] r0)
        end
      else if in_rng 0xF0 0xF4 b0 then
        match r0 with
        | b1 :: b2 :: b3 :: r3 =>
            if second4 b0 b1 && cont b2 && cont b3
            then cons_ok ((b0 - 0xF0) * 262144 + (b1 - 0x80) * 4096 +
                          (b2 - 0x80) * 64 + (b3 - 0x80))
                         (utf8_decode_from (pos + 4)%nat r3)
            else inl (seq_error pos 1 b0 [second4 b0; cont; cont] r0)
        | _ => inl (seq_error pos 1 b0 [second4 b0; cont; cont] r0)
        end
      else inl {| err_start := pos; err_end := S pos; err_byte := b0;
                  err_reason := InvalidStartByte |}
  end.

Definition utf8_decode (bs : list Z) : decode_error + pystr := utf8_decode_from 0 bs.

(** ** The encoder *)

Definition utf8_encode_char (c : Z) : option (list Z) :=
  if is_surrogate c then None
  else if c <? 0x80 then Some [c]
  else if c <? 0x800 then Some [0xC0 + c / 64; 0x80 + c mod 64]
  else if c <? 0x10000 then
    Some [0xE0 + c / 4096; 0x80 + (c / 64) mod 64; 0x80 + c mod 64]
  else
    Some [0xF0 + c / 262144; 0x80 + (c / 4096) mod 64; 0x80 + (c / 64) mod 64;
          0x80 + c mod 64].

Fixpoint utf8_encode (s : pystr) : option (list Z) :=
  match s with
  | [] => Some []
  | c :: t =>
      match utf8_encode_char c, utf8_encode t with
      | Some bs, Some rest => Some (bs ++ rest)
      | _, _ => None
      end
  end.

(** ** Lemmas on the decoder *)

Ltac zlia := Z.div_mod_to_equations; lia.

Lemma in_rng_iff (lo hi b : Z) : in_rng lo hi b = true <-> lo <= b <= hi.
Proof. unfold in_rng. rewrite andb_true_iff, !Z.leb_le. done. Qed.

Lemma in_rng_false (lo hi b : Z) : in_rng lo hi b = false <-> ~ (lo <= b <= hi).
Proof. rewrite <- in_rng_iff. destruct (in_rng lo hi b); intuition congruence. Qed.

Lemma decode_step1 (pos : nat) (b0 : Z) (r : pystr) :
  b0 < 0x80 -> utf8_decode_from pos (b0 :: r) = cons_ok b0 (utf8_decode_from (S pos) r).
Proof. intros H. simpl. apply Z.ltb_lt in H. by rewrite H. Qed.

Lemma decode_step2 (pos : nat) (b0 b1 : Z) (r : pystr) :
  0xC2 <= b0 <= 0xDF -> cont b1 = true ->
  utf8_decode_from pos (b0 :: b1 :: r) =
  cons_ok ((b0 - 0xC0) * 64 + (b1 - 0x80)) (utf8_decode_from (pos + 2)%nat r).
Proof.
  intros H0 H1. simpl. rewrite (proj2 (Z.ltb_ge b0 0x80)) by lia.
  rewrite (proj2 (in_rng_iff _ _ _)) by lia. by rewrite H1.
Qed.

Lemma decode_step3 (pos : nat) (b0 b1 b2 : Z) (r : pystr) :
  0xE0 <= b0 <= 0xEF ->
  second3 b0 b1 = true -> cont b2 = true ->
  utf8_decode_from pos (b0 :: b1 :: b2 :: r) =
  cons_ok ((b0 - 0xE0) * 4096 + (b1 - 0x80) * 64 + (b2 - 0x80))
          (utf8_decode_from (pos + 3)%nat r).
Proof.
  intros H0 H1 H2. simpl. rewrite (proj2 (Z.ltb_ge b0 0x80)) by lia.
  rewrite (proj2 (in_rng_false 0xC2 0xDF b0)) by lia.
  rewrite (proj2 (in_rng_iff 0xE0 0xEF b0)) by lia. by rewrite H1, H2.
Qed.

Lemma decode_step4 (pos : nat) (b0 b1 b2 b3 : Z) (r : pystr) :
  0xF0 <= b0 <= 0xF4 ->
  second4 b0 b1 = true -> cont b2 = true -> cont b3 = true ->
  utf8_decode_from pos (b0 :: b1 :: b2 :: b3 :: r) =
  cons_ok ((b0 - 0xF0) * 262144 + (b1 - 0x80) * 4096 + (b2 - 0x80) * 64 + (b3 - 0x80))
          (utf8_decode_from (pos + 4)%nat r).
Proof.
  intros H0 H1 H2 H3. simpl. rewrite (proj2 (Z.ltb_ge b0 0x80)) by lia.
  rewrite (proj2 (in_rng_false 0xC2 0xDF b0)) by lia.
  rewrite (proj2 (in_rng_false 0xE0 0xEF b0)) by lia.
  rewrite (proj2 (in_rng_iff 0xF0 0xF4 b0)) by lia. by rewrite H1, H2, H3.
Qed.

Lemma cont_low6 (c : Z) : cont (0x80 + c mod 64) = true.
Proof. apply in_rng_iff. pose proof (Z.mod_pos_bound c 64). lia. Qed.

Lemma decode_encode_char (c : Z) (pos : nat) (rest : pystr) :
  scalar c -> exists bs, utf8_encode_char c = Some bs /\
    utf8_decode_from pos (bs ++ rest) = cons_ok c (utf8_decode_from (pos + length bs) rest).
Proof.
  intros [Hc Hs]. unfold utf8_encode_char. rewrite Hs. unfold is_surrogate in Hs.
  rewrite andb_false_iff, !Z.leb_gt in Hs.
  destruct (Z.ltb_spec c 0x80).
  { eexists; split; [done|]. cbn [app length]. rewrite decode_step1 by done. by rewrite Nat.add_1_r. }
  destruct (Z.ltb_spec c 0x800).
  { eexists; split; [done|]. cbn [app length]. rewrite decode_step2; [|zlia|apply cont_low6].
    f_equal. zlia. }
  destruct (Z.ltb_spec c 0x10000).
  { eexists; split; [done|]. cbn [app length]. rewrite decode_step3; [|zlia| |apply cont_low6].
    - f_equal. zlia.
    - unfold second3. apply in_rng_iff. destruct (Z.eqb_spec (0xE0 + c / 4096) 0xE0);
      destruct (Z.eqb_spec (0xE0 + c / 4096) 0xED); zlia. }
  eexists; split; [done|]. cbn [app length]. rewrite decode_step4; [|zlia| |apply cont_low6..].
  - f_equal. zlia.
  - unfold second4. apply in_rng_iff. destruct (Z.eqb_spec (0xF0 + c / 262144) 0xF0);
    destruct (Z.eqb_spec (0xF0 + c / 262144) 0xF4); zlia.
Qed.

Lemma is_surrogate_false (c : Z) : c < 0xD800 \/ 0xDFFF < c -> is_surrogate c = false.
Proof. intros H. unfold is_surrogate. apply andb_false_iff. rewrite !Z.leb_gt. lia. Qed.

(** Decide the tests of [utf8_encode_char] one at a time. *)
Ltac enc_tests :=
  repeat match goal with
  | |- context [if is_surrogate ?c then _ else _] =>
      rewrite (is_surrogate_false c) by zlia
  | |- context [if ?a <? ?b then _ else _] =>
      first [rewrite (proj2 (Z.ltb_lt a b)) by zlia | rewrite (proj2 (Z.ltb_ge a b)) by zlia]
  end.

Lemma rng3 (b0 b1 : Z) :
  second3 b0 b1 = true ->
  0x80 <= b1 <= 0xBF /\ (b0 = 0xE0 -> 0xA0 <= b1) /\ (b0 = 0xED -> b1 <= 0x9F).
Proof.
  unfold second3. rewrite in_rng_iff. destruct (Z.eqb_spec b0 0xE0), (Z.eqb_spec b0 0xED); lia.
Qed.

Lemma rng4 (b0 b1 : Z) :
  second4 b0 b1 = true ->
  0x80 <= b1 <= 0xBF /\ (b0 = 0xF0 -> 0x90 <= b1) /\ (b0 = 0xF4 -> b1 <= 0x8F).
Proof.
  unfold second4. rewrite in_rng_iff. destruct (Z.eqb_spec b0 0xF0), (Z.eqb_spec b0 0xF4); lia.
Qed.

Lemma ascii_scalar (c : Z) : 0 <= c < 0x80 -> scalar c.
Proof. intros H. split; [lia|]. apply is_surrogate_false. lia. Qed.

(** Turn the byte-range tests of the decoder into arithmetic. *)
Ltac rng_arith :=
  repeat match goal with
  | H : second3 _ _ = true |- _ => apply rng3 in H
  | H : second4 _ _ = true |- _ => apply rng4 in H
  | H : (_ && _)%bool = true |- _ => apply andb_true_iff in H as [? ?]
  | H : cont _ = true |- _ => unfold cont in H
  | H : in_rng _ _ _ = true |- _ => apply in_rng_iff in H
  end.

(** Close the goals of one decoding step: the list of bytes is the
    encoding, and the code point is a scalar value. *)
Ltac step_goals :=
  repeat split; try done;
  [ unfold utf8_encode_char; enc_tests; f_equal;
    repeat apply (f_equal2 (@cons Z)); try reflexivity; zlia
  | zlia | zlia | apply is_surrogate_false; zlia ].

(** What a decoding error of the bytes [bs], found at offset [pos] of the
    input, satisfies: it starts inside [bs] at the byte it reports, spans
    at least that byte, ends inside the input, and ends at the end of the
    input when the data ran out. *)
Definition err_in (pos : nat) (bs : list Z) (e : decode_error) : Prop :=
  (pos <= err_start e < err_end e)%nat /\ (err_end e <= pos + length bs)%nat /\
  bs !! (err_start e - pos)%nat = Some (err_byte e) /\
  (err_reason e = UnexpectedEndOfData -> err_end e = (pos + length bs)%nat) /\
  (err_reason e = InvalidStartByte -> err_end e = S (err_start e)).

Lemma seq_error_spec (pos : nat) (b0 : Z) (tests : list (Z -> bool)) :
  forall k r, let e := seq_error pos k b0 tests r in
  err_start e = pos /\ (pos + k <= err_end e <= pos + k + length r)%nat /\
  err_byte e = b0 /\ err_reason e <> InvalidStartByte /\
  (err_reason e = UnexpectedEndOfData -> err_end e = (pos + k + length r)%nat).
Proof.
  induction tests as [|t ts IH]; intros k [|b r]; simpl;
    try (repeat split; cbn; (intros ?; discriminate) || done || lia).
  destruct (t b); [|repeat split; cbn; (intros ?; discriminate) || done || lia].
  destruct (IH (S k) r) as (H1 & H2 & H3 & H4 & H5). simpl in H2.
  repeat split; try done; [lia|lia|intros ?; rewrite H5 by done; simpl; lia].
Qed.

(** The error of a sequence started at the first byte lies inside it. *)
Lemma seq_error_in (pos : nat) (b0 : Z) (tests : list (Z -> bool)) (r : list Z) :
  err_in pos (b0 :: r) (seq_error pos 1 b0 tests r).
Proof.
  destruct (seq_error_spec pos b0 tests 1 r) as (H1 & H2 & H3 & H4 & H5).
  unfold err_in. rewrite H1, H3, Nat.sub_diag. simpl.
  repeat split; try done; [lia|lia|intros ?; rewrite H5 by done; lia].
Qed.

(** An error further on lies inside the longer input. *)
Lemma err_in_app (pos : nat) (cs rest : list Z) (e : decode_error) :
  err_in (pos + length cs) rest e -> err_in pos (cs ++ rest) e.
Proof.
  intros (H1 & H2 & H3 & H4 & H5). unfold err_in. len_simpl.
  rewrite lookup_app_r by lia. replace (err_start e - pos - length cs)%nat
    with (err_start e - (pos + length cs))%nat by lia.
  repeat split; try done; try lia. intros ?. rewrite H4 by done. lia.
Qed.

(** An error case of [decode_from_cases]. *)
Ltac err_case :=
  left; eexists; split;
  [reflexivity|split; [apply (proj1 (seq_error_spec _ _ _ 1 _))|apply seq_error_in]].

(** The three outcomes of one decoding step on bytes: end of input, an
    error at the current position, or a well-formed sequence [cs] (the
    encoding of a scalar value [c]) whose decoding does not depend on what
    follows. *)
Lemma decode_from_cases (pos : nat) (bs : list Z) :
  Forall is_byte bs ->
  bs = [] \/
  (exists e, utf8_decode_from pos bs = inl e /\ err_start e = pos /\ err_in pos bs e) \/
  exists c cs rest, bs = cs ++ rest /\
    (forall r, utf8_decode_from pos (cs ++ r) =
               cons_ok c (utf8_decode_from (pos + length cs) r)) /\
    cs <> [] /\ utf8_encode_char c = Some cs /\ scalar c.
Proof.
  intros Hb. destruct bs as [|b0 r0]; [by left|]. right.
  apply Forall_cons in Hb as [Hb0 _]. unfold is_byte in Hb0. cbn [utf8_decode_from].
  destruct (Z.ltb_spec b0 0x80).
  { right. exists b0, [b0], r0. split; [done|]. split.
    { intros r. cbn [app length]. rewrite decode_step1 by done. by rewrite Nat.add_1_r. }
    step_goals. }
  destruct (in_rng 0xC2 0xDF b0) eqn:H2.
  { destruct r0 as [|b1 r1]; [err_case|]. destruct (cont b1) eqn:Hb1; [|err_case].
    right. exists ((b0 - 0xC0) * 64 + (b1 - 0x80)), [b0; b1], r1. split; [done|]. split.
    { intros r. cbn [app length]. rewrite decode_step2; [done|by apply in_rng_iff|done]. }
    rng_arith. step_goals. }
  destruct (in_rng 0xE0 0xEF b0) eqn:H3.
  { destruct r0 as [|b1 [|b2 r2]]; [err_case|err_case|].
    destruct (second3 b0 b1 && cont b2) eqn:Hc; [|err_case].
    apply andb_true_iff in Hc as [Hc1 Hc2].
    right. exists ((b0 - 0xE0) * 4096 + (b1 - 0x80) * 64 + (b2 - 0x80)), [b0; b1; b2], r2.
    split; [done|]. split.
    { intros r. cbn [app length]. rewrite decode_step3; [done|by apply in_rng_iff|done|done]. }
    rng_arith. step_goals. }
  destruct (in_rng 0xF0 0xF4 b0) eqn:H4.
  2:{ left. eexists. split; [reflexivity|]. split; [done|].
      unfold err_in; cbn. rewrite Nat.sub_diag. repeat split; try done; lia. }
  destruct r0 as [|b1 [|b2 [|b3 r3]]]; [err_case|err_case|err_case|].
  destruct (second4 b0 b1 && cont b2 && cont b3) eqn:Hc; [|err_case].
  apply andb_true_iff in Hc as [Hc Hc3]. apply andb_true_iff in Hc as [Hc1 Hc2].
  right. exists ((b0 - 0xF0) * 262144 + (b1 - 0x80) * 4096 + (b2 - 0x80) * 64 + (b3 - 0x80)),
    [b0; b1; b2; b3], r3. split; [done|]. split.
  { intros r. cbn [app length]. rewrite decode_step4; [done|by apply in_rng_iff|done..]. }
  rng_arith. step_goals.
Qed.

Lemma cons_ok_inr (c : Z) (r : decode_error + pystr) (s : pystr) :
  cons_ok c r = inr s -> exists s', r = inr s' /\ s = c :: s'.
Proof. destruct r; simpl; [done|]. intros [= <-]. eauto. Qed.

Lemma cons_ok_inl (c : Z) (r : decode_error + pystr) (e : decode_error) :
  cons_ok c r = inl e -> r = inl e.
Proof. by destruct r as [|]; simpl; [intros [= ->]|]. Qed.

Lemma length_pos_app (cs rest : list Z) : cs <> [] -> (length rest < length (cs ++ rest))%nat.
Proof. destruct cs; [done|]. intros _. len_simpl. lia. Qed.

(** A successful decode is canonical (its text encodes back to the same
    bytes) and yields scalar values only. *)
Lemma decode_from_ok (bs : list Z) :
  forall pos s, Forall is_byte bs -> utf8_decode_from pos bs = inr s ->
  utf8_encode s = Some bs /\ Forall scalar s.
Proof.
  induction bs as [bs IH] using (induction_ltof1 _ (@length Z)). unfold ltof in IH.
  intros pos s Hb Hd.
  destruct (decode_from_cases pos bs Hb)
    as [->|[(e & He & _)|(c & cs & rest & -> & Hstep & Hne & Hc & Hsc)]].
  - simpl in Hd. by injection Hd as <-.
  - congruence.
  - rewrite Hstep in Hd. apply cons_ok_inr in Hd as (s' & Hr & ->).
    apply Forall_app in Hb as [_ Hb].
    destruct (IH rest (length_pos_app cs rest Hne) _ _ Hb Hr) as [He Hs'].
    simpl. rewrite Hc, He. split; [done|by constructor].
Qed.

(** A decoding error lies inside the input, and the bytes before its
    start decode without error. *)
Lemma decode_from_error (bs : list Z) :
  forall pos e, Forall is_byte bs -> utf8_decode_from pos bs = inl e ->
  err_in pos bs e /\ exists s, utf8_decode_from pos (take (err_start e - pos) bs) = inr s.
Proof.
  induction bs as [bs IH] using (induction_ltof1 _ (@length Z)). unfold ltof in IH.
  intros pos e Hb Hd.
  destruct (decode_from_cases pos bs Hb)
    as [->|[(e' & He & Hs & Hin)|(c & cs & rest & -> & Hstep & Hne & Hc & Hsc)]].
  - done.
  - rewrite He in Hd. injection Hd as <-. rewrite Hs, Nat.sub_diag. split; [done|by exists []].
  - rewrite Hstep in Hd. apply cons_ok_inl in Hd. apply Forall_app in Hb as [_ Hb].
    destruct (IH rest (length_pos_app cs rest Hne) _ _ Hb Hd) as [Hin [s' Hs']].
    split; [by apply err_in_app|].
    destruct Hin as ((Hle & _) & _).
    rewrite take_app, take_ge by lia. rewrite Hstep.
    replace (err_start e - pos - length cs)%nat with (err_start e - (pos + length cs))%nat by lia.
    rewrite Hs'. by eexists.
Qed.
Lemma encode_char_bytes (c : Z) (cs : list Z) :
  scalar c -> utf8_encode_char c = Some cs -> Forall is_byte cs.
Proof.
  intros [Hc _]. unfold utf8_encode_char. destruct (is_surrogate c); [done|].
  destruct (Z.ltb_spec c 0x80); [|destruct (Z.ltb_spec c 0x800);
    [|destruct (Z.ltb_spec c 0x10000)]];
    intros [= <-]; repeat constructor; unfold is_byte; zlia.
Qed.

Lemma encode_decode_from (s : pystr) :
  Forall scalar s -> forall pos, exists bs,
    utf8_encode s = Some bs /\ Forall is_byte bs /\ utf8_decode_from pos bs = inr s.
Proof.
  induction 1 as [|c s Hc Hs IH]; intros pos; [by exists []|].
  destruct (decode_encode_char c pos [] Hc) as (cs & Hcs & _).
  destruct (IH (pos + length cs)%nat) as (bs & He & Hb & Hd).
  destruct (decode_encode_char c pos bs Hc) as (cs' & Hcs' & Hdec).
  rewrite Hcs in Hcs'. injection Hcs' as <-.
  exists (cs ++ bs). simpl. rewrite Hcs, He. split; [done|]. split.
  - apply Forall_app. split; [by apply (encode_char_bytes c)|done].
  - by rewrite Hdec, Hd.
Qed.

(** Decoding the encoding of a text gives the text back. *)
Lemma decode_encode (s : pystr) (bs : list Z) :
  Forall scalar s -> utf8_encode s = Some bs -> utf8_decode bs = inr s.
Proof.
  intros Hs He. destruct (encode_decode_from s Hs 0) as (bs' & He' & _ & Hd).
  rewrite He in He'. by injection He' as ->.
Qed.

(** The number of bytes a code point encodes to. *)
Definition enc_len (c : Z) : nat :=
  match utf8_encode_char c with Some bs => length bs | None => 0 end.

Lemma encode_length (s : pystr) (bs : list Z) :
  utf8_encode s = Some bs -> length bs = weight enc_len s.
Proof.
  revert bs. induction s as [|c t IH]; intros bs; simpl; [by intros [= <-]|].
  destruct (utf8_encode_char c) as [cs|] eqn:Hc; [|done].
  destruct (utf8_encode t) as [rest|]; [|done]. intros [= <-].
  rewrite length_app, (IH rest eq_refl). unfold weight. cbn [map sum_list].
  unfold id, enc_len. rewrite Hc. lia.
Qed.

(** C19: Every text of scalar values is encodable, its encoding is made of
    bytes, and decoding the encoding gives the text back. *)
Theorem utf8_roundtrip (s : pystr) :
  Forall scalar s ->
  exists bs, utf8_encode s = Some bs /\ Forall is_byte bs /\ utf8_decode bs = inr s.
Proof. intros Hs. exact (encode_decode_from s Hs 0). Qed.

Lemma utf8_roundtrip_witness :
  Forall scalar [0x48; 0xE9; 0x20AC; 0x1F600] /\
  utf8_encode [0x48; 0xE9; 0x20AC; 0x1F600] =
    Some [72; 195; 169; 226; 130; 172; 240; 159; 152; 128] /\
  exists bs, utf8_encode [0x48; 0xE9; 0x20AC; 0x1F600] = Some bs /\ Forall is_byte bs /\
    utf8_decode bs = inr [0x48; 0xE9; 0x20AC; 0x1F600].
Proof.
  assert (H : Forall scalar [0x48; 0xE9; 0x20AC; 0x1F600])
    by (unfold scalar; apply (bool_decide_unpack _); by vm_compute).
  split; [done|]. split; [by vm_compute|]. exact (utf8_roundtrip _ H).
Defined.

(** C18: A successful decode is canonical: the decoded text is made of
    scalar values and encodes back to exactly the bytes read. *)
Theorem utf8_decode_canonical (bs : list Z) (s : pystr) :
  Forall is_byte bs -> utf8_decode bs = inr s ->
  utf8_encode s = Some bs /\ Forall scalar s.
Proof. apply decode_from_ok. Qed.

Lemma utf8_decode_canonical_witness :
  Forall is_byte [0xC3; 0xA9] /\ utf8_decode [0xC3; 0xA9] = inr [0xE9] /\
  utf8_encode [0xE9] = Some [0xC3; 0xA9] /\ Forall scalar [0xE9].
Proof.
  assert (H1 : Forall is_byte [0xC3; 0xA9])
    by (unfold is_byte; apply (bool_decide_unpack _); by vm_compute).
  assert (H2 : utf8_decode [0xC3; 0xA9] = inr [0xE9]) by (by vm_compute).
  split; [done|]. split; [done|]. exact (utf8_decode_canonical _ _ H1 H2).
Defined.

(** C20: A decoding error is reported as CPython reports it: it starts
    inside the input at the byte it names and ends after it, within the
    input; it runs to the end of the input when the data ran out, and spans
    one byte for an invalid start byte; the bytes before it decode without
    error. *)
Theorem utf8_decode_error (bs : list Z) (e : decode_error) :
  Forall is_byte bs -> utf8_decode bs = inl e ->
  (err_start e < err_end e <= length bs)%nat /\ bs !! err_start e = Some (err_byte e) /\
  (err_reason e = UnexpectedEndOfData -> err_end e = length bs) /\
  (err_reason e = InvalidStartByte -> err_end e = S (err_start e)) /\
  exists s, utf8_decode (take (err_start e) bs) = inr s.
Proof.
  intros Hb Hd. destruct (decode_from_error bs 0 e Hb Hd) as [(H1 & H2 & H3 & H4 & H5) Hs].
  rewrite Nat.sub_0_r in H3, Hs. repeat split; try done; lia.
Qed.

(** [b'a\xe2\x82A']: a three-byte sequence cut by [A]; CPython reports
    [start = 1], [end = 3], "invalid continuation byte". *)
Lemma utf8_decode_error_witness :
  let bs := [0x61; 0xE2; 0x82; 0x41] in
  let e := {| err_start := 1; err_end := 3; err_byte := 0xE2;
              err_reason := InvalidContinuationByte |} in
  Forall is_byte bs /\ utf8_decode bs = inl e /\
  (err_start e < err_end e <= length bs)%nat /\ bs !! err_start e = Some (err_byte e) /\
  (err_reason e = UnexpectedEndOfData -> err_end e = length bs) /\
  (err_reason e = InvalidStartByte -> err_end e = S (err_start e)) /\
  exists s, utf8_decode (take (err_start e) bs) = inr s.
Proof.
  intros bs e.
  assert (H1 : Forall is_byte bs) by (unfold is_byte; apply (bool_decide_unpack _); by vm_compute).
  assert (H2 : utf8_decode bs = inl e) by (by vm_compute).
  split; [done|]. split; [done|]. exact (utf8_decode_error _ _ H1 H2).
Defined.

(** ** The message of a [UnicodeDecodeError] *)

(** ["%zd"]: the decimal digits of a number, most significant first;
    [fuel] bounds the number of digits. *)
Fixpoint dec_digits (fuel n : nat) : pystr :=
  match fuel with
  | O => []
  | S f => (if (n <? 10)%nat then [] else dec_digits f (n / 10)) ++ [48 + Z.of_nat (n mod 10)]
  end.

(** A number has fewer digits than its value plus one. *)
Definition str_nat (n : nat) : pystr := dec_digits (S n) n.

(** ["%02x"] for a byte. *)
Definition hex_digit (d : Z) : Z := if d <? 10 then 48 + d else 87 + d.

Definition hex2 (b : Z) : pystr := [hex_digit (b / 16); hex_digit (b mod 16)].

Definition reason_text (r : decode_reason) : pystr :=
  match r with
  | InvalidStartByte => of_ascii "invalid start byte"
  | InvalidContinuationByte => of_ascii "invalid continuation byte"
  | UnexpectedEndOfData => of_ascii "unexpected end of data"
  end.

(** [UnicodeDecodeError.__str__]: one byte is shown with its value, a
    longer range with its first and last positions. *)
Definition decode_error_str (e : decode_error) : pystr :=
  of_ascii "'utf-8' codec can't decode " ++
  (if (err_end e =? S (err_start e))%nat
   then of_ascii "byte 0x" ++ hex2 (err_byte e) ++ of_ascii " in position " ++
        str_nat (err_start e)
   else of_ascii "bytes in position " ++ str_nat (err_start e) ++ [45] ++
        str_nat (pred (err_end e))) ++
  of_ascii ": " ++ reason_text (err_reason e).

(** [int(s)] for a string of decimal digits. *)
Definition parse_nat (s : pystr) : nat :=
  fold_left (fun acc c => (acc * 10 + Z.to_nat (c - 48))%nat) s 0%nat.

Lemma parse_nat_snoc (s : pystr) (c : Z) :
  parse_nat (s ++ [c]) = (parse_nat s * 10 + Z.to_nat (c - 48))%nat.
Proof. unfold parse_nat. by rewrite fold_left_app. Qed.

(** With enough fuel the digits of [n] are a non-empty run of ASCII
    digits that [int] reads back as [n]. *)
Lemma dec_digits_parse (fuel : nat) :
  forall n, (n < fuel)%nat -> parse_nat (dec_digits fuel n) = n /\ dec_digits fuel n <> [] /\
    Forall (fun c => 48 <= c <= 57) (dec_digits fuel n).
Proof.
  induction fuel as [|f IH]; intros n Hn; [lia|]. cbn [dec_digits].
  assert (Hd : Z.to_nat (48 + Z.of_nat (n mod 10) - 48) = (n mod 10)%nat) by lia.
  assert (Hm : (n mod 10 < 10)%nat) by (apply Nat.mod_upper_bound; lia).
  destruct (Nat.ltb_spec n 10).
  - rewrite parse_nat_snoc, Hd. change (parse_nat []) with 0%nat.
    rewrite Nat.mod_small by lia. split; [lia|].
    split; [done|]. repeat constructor; lia.
  - destruct (IH (n / 10)%nat) as (Hp & Hne & Hf); [apply Nat.Div0.div_lt_upper_bound; lia|].
    rewrite parse_nat_snoc, Hp, Hd. split; [pose proof (Nat.div_mod_eq n 10); lia|].
    split; [by destruct (dec_digits f (n / 10))|].
    apply Forall_app. split; [done|]. repeat constructor; lia.
Qed.

End Utf8.
