(* ===== verification/Regex.v ===== *)
(** * The fragment of Python's [re] engine that the script's pattern uses

    The pattern of line 11 is made of literal characters, the class [\d],
    and greedy repeats of one single-character item ([+] and [{n}]).
    [sre_compile] turns each repeat of a single-character item into a
    REPEAT_ONE instruction: [_sre] counts how many characters the item
    matches (at most the upper bound), and then tries the rest of the
    pattern after [count], [count - 1], ..., [min] characters, taking the
    first that succeeds.  [sre_match] below is that matcher on a pattern
    given as a list of [node]s; it returns the length of the matched prefix.

    [nodes_match] is the declarative meaning of a pattern (which strings it
    matches).  [sre_match_sound] and [sre_match_complete] show the matcher
    finds a match exactly when one exists; [sre_match_greedy] shows which
    one it finds. *)

From Stdlib Require Import ZArith.
From stdpp Require Import base list.
From S2P Require Import Prelude Chars.

Module Sre.

(** ** Patterns *)

(** A single-character item: a LITERAL, or IN [CATEGORY_UNI_DIGIT] ([\d]). *)
Inductive atom : Type :=
| LITERAL (c : Z)
| IN_DIGIT.

(** An item matched once, or REPEAT_ONE [min] [max] with [max = None] for
    MAXREPEAT (no upper bound). *)
Inductive node : Type :=
| SINGLE (a : atom)
| REPEAT_ONE (lo : nat) (hi : option nat) (a : atom).

Definition pattern := list node.

Definition atom_match (a : atom) (c : Z) : bool :=
  match a with
  | LITERAL d => Z.eqb c d
  | IN_DIGIT => is_uni_digit c
  end.

(** ** The matcher *)

(** The number of leading characters the item matches. *)
Fixpoint count_all (a : atom) (s : pystr) : nat :=
  match s with
  | [] => 0
  | c :: t => if atom_match a c then S (count_all a t) else 0
  end.

(** [_sre]'s [count]: the leading matches, cut at the upper bound. *)
Definition count (a : atom) (hi : option nat) (s : pystr) : nat :=
  match hi with
  | None => count_all a s
  | Some m => Nat.min m (count_all a s)
  end.

(** The REPEAT_ONE loop: [while count >= mincount], try the tail after
    [count] characters, then one character fewer.  [f j] is the length the
    rest of the pattern matches after [j] characters. *)
Fixpoint try_counts (f : nat -> option nat) (lo k : nat) : option nat :=
  if Nat.ltb k lo then None
  else match f k with
       | Some n => Some (k + n)
       | None => match k with
                 | 0 => None
                 | S k' => try_counts f lo k'
                 end
       end.

(** A match of the pattern at the start of [s]: the length of the matched
    prefix, or [None]. *)
Fixpoint sre_match (p : pattern) (s : pystr) : option nat :=
  match p with
  | [] => Some 0
  | SINGLE a :: p' =>
      match s with
      | c :: t =>
          if atom_match a c then
            match sre_match p' t with
            | Some n => Some (S n)
            | None => None
            end
          else None
      | [] => None
      end
  | REPEAT_ONE lo hi a :: p' =>
      try_counts (fun j => sre_match p' (drop j s)) lo (count a hi s)
  end.

(** ** Declarative meaning *)

Definition atoms (a : atom) (u : pystr) : Prop :=
  Forall (fun c => atom_match a c = true) u.

Definition within (hi : option nat) (n : nat) : Prop :=
  match hi with
  | None => True
  | Some m => n <= m
  end.

(** [nodes_match p w]: the whole of [w] matches [p]. *)
Inductive nodes_match : pattern -> pystr -> Prop :=
| NM_nil : nodes_match [] []
| NM_single a c w p :
    atom_match a c = true -> nodes_match p w ->
    nodes_match (SINGLE a :: p) (c :: w)
| NM_repeat lo hi a u w p :
    atoms a u -> lo <= length u -> within hi (length u) -> nodes_match p w ->
    nodes_match (REPEAT_ONE lo hi a :: p) (u ++ w).

(** ** Lemmas on counting *)

Lemma count_all_le (a : atom) (s : pystr) : count_all a s <= length s.
Proof. induction s as [|c t IH]; simpl; [lia|]. destruct (atom_match a c); lia. Qed.

Lemma count_all_atoms (a : atom) (s : pystr) : atoms a (take (count_all a s) s).
Proof.
  induction s as [|c t IH]; simpl; [constructor|].
  destruct (atom_match a c) eqn:Hc; simpl; constructor; done.
Qed.

(** The count is maximal: a run of matching characters is counted. *)
Lemma count_all_app (a : atom) (u r : pystr) :
  atoms a u -> length u <= count_all a (u ++ r).
Proof.
  induction 1 as [|c u Hc _ IH]; simpl; [lia|]. rewrite Hc. lia.
Qed.

Lemma count_le (a : atom) hi (s : pystr) :
  count a hi s <= count_all a s /\ within hi (count a hi s).
Proof. destruct hi; simpl; lia. Qed.

(** ** Lemmas on the backtracking loop *)

(** What [try_counts] returns: the largest [j] between [lo] and [k] for
    which [f j] succeeds, with [f]'s result added. *)
Lemma try_counts_some (f : nat -> option nat) (lo k n : nat) :
  try_counts f lo k = Some n ->
  exists j m, lo <= j <= k /\ f j = Some m /\ n = j + m /\
              (forall j', j < j' <= k -> f j' = None).
Proof.
  induction k as [|k IH]; simpl; case_bool; try done.
  - destruct (f 0) eqn:Hf; [|done]. intros [= <-].
    exists 0, n0. repeat split; try lia; done.
  - destruct (f (S k)) eqn:Hf.
    + intros [= <-]. exists (S k), n0. repeat split; try lia; done.
    + intros Hk. destruct (IH Hk) as (j & m & Hj & Hfj & -> & Hmax).
      exists j, m. repeat split; try lia; try done.
      intros j' Hj'. destruct (decide (j' = S k)) as [->|]; [done|].
      apply Hmax. lia.
Qed.

Lemma try_counts_complete (f : nat -> option nat) (lo k j m : nat) :
  lo <= j <= k -> f j = Some m -> exists n, try_counts f lo k = Some n.
Proof.
  intros Hj Hf. induction k as [|k IH]; simpl; case_bool; try lia.
  - assert (j = 0) as -> by lia. rewrite Hf. eauto.
  - destruct (f (S k)) eqn:Hfk; [eauto|].
    apply IH. destruct (decide (j = S k)) as [->|]; [congruence|lia].
Qed.

(** ** Soundness and completeness *)

(** What the matcher returns is the length of a prefix that matches. *)
Lemma sre_match_sound (p : pattern) (s : pystr) (n : nat) :
  sre_match p s = Some n -> n <= length s /\ nodes_match p (take n s).
Proof.
  revert s n. induction p as [|[a|lo hi a] p IH]; intros s n; simpl.
  - intros [= <-]. split; [lia|constructor].
  - destruct s as [|c t]; [done|]. destruct (atom_match a c) eqn:Hc; [|done].
    destruct (sre_match p t) as [m|] eqn:Hm; [|done]. intros [= <-].
    destruct (IH t m Hm) as [Hle Hnm]. simpl. split; [lia|]. by constructor.
  - intros Hk. apply try_counts_some in Hk as (j & m & Hj & Hf & -> & _).
    destruct (IH _ _ Hf) as [Hle Hnm].
    pose proof (count_le a hi s) as [Hc Hw]. pose proof (count_all_le a s).
    rewrite length_drop in Hle. split; [lia|].
    rewrite <- take_take_drop.
    assert (Hlen : length (take j s) = j) by (rewrite length_take_le; lia).
    constructor; [|rewrite Hlen; lia|rewrite Hlen; destruct hi; simpl in *; lia|done].
    pose proof (count_all_atoms a s) as Hat.
    replace (take j s) with (take j (take (count_all a s) s))
      by (rewrite take_take; f_equal; lia).
    by apply Forall_take.
Qed.

(** If some prefix of the input matches, the matcher succeeds. *)
Lemma sre_match_complete (p : pattern) (w r : pystr) :
  nodes_match p w -> exists n, sre_match p (w ++ r) = Some n.
Proof.
  induction 1 as [|a c w p Hc _ IH|lo hi a u w p Hu Hlo Hhi _ IH]; simpl.
  - eauto.
  - rewrite Hc. destruct IH as [n ->]. eauto.
  - destruct IH as [n Hn].
    apply (try_counts_complete _ lo _ (length u) n).
    + split; [done|]. pose proof (count_all_app a u (w ++ r) Hu).
      rewrite <- app_assoc. destruct hi; simpl in *; lia.
    + by rewrite <- app_assoc, drop_app_length.
Qed.

(** C17: The matcher is correct: what it returns is the length of a matching
    prefix, and it succeeds exactly when some prefix of the input matches. *)
Theorem sre_match_correct (p : pattern) (s : pystr) :
  (forall n, sre_match p s = Some n -> nodes_match p (take n s)) /\
  ((exists n, sre_match p s = Some n) <-> exists w r, s = w ++ r /\ nodes_match p w).
Proof.
  split; [intros n Hn; apply (sre_match_sound _ _ _ Hn)|split].
  - intros [n Hn]. destruct (sre_match_sound _ _ _ Hn) as [_ Hw].
    exists (take n s), (drop n s). by rewrite take_drop.
  - intros (w & r & -> & Hw). by apply sre_match_complete.
Qed.

(** C30: The match of a repeat is greedy: the matcher takes the largest count
    of the repeated item after which the rest of the pattern matches. *)
Theorem sre_match_greedy (lo : nat) (hi : option nat) (a : atom) (p : pattern)
    (s : pystr) (n : nat) :
  sre_match (REPEAT_ONE lo hi a :: p) s = Some n ->
  exists j m, lo <= j <= count a hi s /\ sre_match p (drop j s) = Some m /\
    n = j + m /\ forall j', j < j' <= count a hi s -> sre_match p (drop j' s) = None.
Proof. simpl. apply try_counts_some. Qed.

(** [\d+\n] on ["123\nx"] (code points 49, 50, 51, 10, 120) takes all three digits. *)
Lemma sre_match_greedy_witness :
  let p := [SINGLE (LITERAL 10)] in
  let s := [49; 50; 51; 10; 120]%Z in
  sre_match (REPEAT_ONE 1 None IN_DIGIT :: p) s = Some 4 /\
  exists j m, 1 <= j <= count IN_DIGIT None s /\ sre_match p (drop j s) = Some m /\
    4 = j + m /\ forall j', j < j' <= count IN_DIGIT None s -> sre_match p (drop j' s) = None.
Proof.
  intros p s.
  assert (H : sre_match (REPEAT_ONE 1 None IN_DIGIT :: p) s = Some 4) by (by vm_compute).
  split; [done|]. exact (sre_match_greedy _ _ _ _ _ _ H).
Defined.

(** ** Inversion of the declarative meaning, node by node *)

Lemma nodes_match_nil_iff (w : pystr) : nodes_match [] w <-> w = [].
Proof. split; [by inversion 1|intros ->; constructor]. Qed.

Lemma nodes_match_single_iff (a : atom) (p : pattern) (w : pystr) :
  nodes_match (SINGLE a :: p) w <->
  exists c w', w = c :: w' /\ atom_match a c = true /\ nodes_match p w'.
Proof.
  split.
  - inversion 1; subst. eauto 10.
  - intros (c & w' & -> & Hc & Hw). by constructor.
Qed.

Lemma nodes_match_repeat_iff (lo : nat) (hi : option nat) (a : atom) (p : pattern)
    (w : pystr) :
  nodes_match (REPEAT_ONE lo hi a :: p) w <->
  exists u w', w = u ++ w' /\ atoms a u /\ lo <= length u /\ within hi (length u) /\
               nodes_match p w'.
Proof.
  split.
  - inversion 1; subst. eauto 10.
  - intros (u & w' & -> & Hu & Hlo & Hhi & Hw). by constructor.
Qed.

End Sre.
