(* ===== verification/SreParse.v ===== *)
(** * Reading the pattern: [re]'s parser on the fragment of [Regex]

    [re.sub] compiles the pattern string of line 11 before it matches:
    [re._parser.parse] turns the source into a list of items, and
    [re._compiler] turns a greedy repeat ([MAX_REPEAT]) of a
    single-character item into a REPEAT_ONE instruction.  [sre_parse]
    below is that pipeline on the fragment [Regex] models: ordinary
    characters, the escapes [\d \n \t \r \f \v \a] and escaped punctuation,
    and the quantifiers [* + ? {m} {m,n} {m,} {,n}], with CPython's errors
    (nothing to repeat, multiple repeat, min repeat greater than max
    repeat, the repetition number too large, bad escape, unbalanced
    parenthesis).  The constructs outside the fragment (groups, classes,
    [.], anchors, alternation, lazy and possessive repeats, the other
    escapes) give [Unsupported].

    [SrtPattern.srt_match] matches with what [sre_parse] makes of the
    literal of line 11.  The parser is a loop over the source with fuel;
    one round reads one token, so one round more than the source has
    characters is enough and more change nothing ([parse_seq_fuel]). *)

From Stdlib Require Import ZArith String.
From stdpp Require Import base list.
From S2P Require Import Prelude Regex Utf8.
Import Sre Utf8.

Local Open Scope Z_scope.

Module SreParse.

(** The errors [re.error] (and [OverflowError]) reports for the fragment. *)
Inductive parse_error : Type :=
| NothingToRepeat
| MultipleRepeat
| MinRepeatGreaterThanMax
| RepeatTooLarge
| BadEscape
| UnbalancedParenthesis
| Unsupported.

(** [_sre.MAXREPEAT]: the largest [SRE_CODE], [2 ** 32 - 1]. *)
Definition MAXREPEAT : Z := 4294967295.

(** [DIGITS] and [ASCIILETTERS] of the parser. *)
Definition is_ascii_digit (c : Z) : bool := (48 <=? c) && (c <=? 57).
Definition is_ascii_letter (c : Z) : bool :=
  ((65 <=? c) && (c <=? 90)) || ((97 <=? c) && (c <=? 122)).

(** [_escape] outside a class, for the escape [\c]: [CATEGORIES] has
    [\d]; [ESCAPES] the control characters; the other categories, [\x],
    [\u], [\U], [\N] and the numeric escapes (octal, group references) lie
    outside the fragment; any other ASCII letter is a bad escape; anything
    else stands for itself. *)
Definition escape (c : Z) : parse_error + atom :=
  if c =? 100 then inr IN_DIGIT
  else if c =? 110 then inr (LITERAL 10)
  else if c =? 116 then inr (LITERAL 9)
  else if c =? 114 then inr (LITERAL 13)
  else if c =? 102 then inr (LITERAL 12)
  else if c =? 118 then inr (LITERAL 11)
  else if c =? 97 then inr (LITERAL 7)
  else if is_ascii_digit c || bool_decide (c ∈ of_ascii "ABDSWZbswxuUN") then inl Unsupported
  else if is_ascii_letter c then inl BadEscape
  else inr (LITERAL c).

(** [while source.next in DIGITS: lo += sourceget()] *)
Fixpoint span_digits (s : pystr) : pystr * pystr :=
  match s with
  | [] => ([], [])
  | c :: t => if is_ascii_digit c then let '(d, r) := span_digits t in (c :: d, r) else ([], s)
  end.

(** [source.next == c]: the next character of the source is [c]. *)
Definition starts_with (c : Z) (t : pystr) : bool :=
  match t with
  | d :: _ => d =? c
  | [] => false
  end.

(** [int(lo)] *)
Definition parse_dec (s : pystr) : Z := fold_left (fun acc c => acc * 10 + (c - 48)) s 0.

(** After a ['{']: [{}] is no quantifier; otherwise the digits [lo], then
    a comma and the digits [hi] (or [hi = lo] without a comma), then
    ['}']; when the ['}'] is missing the ['{'] is a literal. *)
Definition brace (t : pystr) : option (pystr * pystr * pystr) :=
  if starts_with 125 t then None
  else
    let '(lo, t1) := span_digits t in
    let '(hi, t2) := if starts_with 44 t1 then span_digits (tail t1) else (lo, t1) in
    if starts_with 125 t2 then Some (lo, hi, tail t2) else None.

(** The bounds of a [{lo,hi}] quantifier, with the overflow and order
    checks of the parser. *)
Definition repeat_bounds (lo hi : pystr) : parse_error + (nat * option nat) :=
  let mn := parse_dec lo in
  if MAXREPEAT <=? mn then inl RepeatTooLarge
  else match hi with
       | [] => inr (Z.to_nat mn, None)
       | _ =>
           let mx := parse_dec hi in
           if MAXREPEAT <=? mx then inl RepeatTooLarge
           else if mx <? mn then inl MinRepeatGreaterThanMax
           else inr (Z.to_nat mn, Some (Z.to_nat mx))
       end.

(** The single-character quantifiers [? * +]. *)
Definition simple_quant (c : Z) : option (nat * option nat) :=
  if c =? 63 then Some (0%nat, Some 1%nat)
  else if c =? 42 then Some (0%nat, None)
  else if c =? 43 then Some (1%nat, None)
  else None.

(** Repeat the last item ([acc] is reversed): there must be one, it must
    not be a repeat already, and a following [?] (lazy) or [+]
    (possessive) leaves the fragment.  [re._compiler] compiles the greedy
    repeat of a single-character item to REPEAT_ONE. *)
Definition apply_repeat (mn : nat) (mx : option nat) (t : pystr) (acc : list node)
    : parse_error + list node :=
  match acc with
  | [] => inl NothingToRepeat
  | REPEAT_ONE _ _ _ :: _ => inl MultipleRepeat
  | SINGLE a :: acc' =>
      if starts_with 63 t || starts_with 43 t then inl Unsupported
      else inr (REPEAT_ONE mn mx a :: acc')
  end.

(** The loop of [_parse], one token per round; [acc] holds the items read
    so far, last first. *)
Fixpoint parse_seq (fuel : nat) (src : pystr) (acc : list node) : parse_error + pattern :=
  match fuel with
  | O => inl Unsupported
  | S f =>
      match src with
      | [] => inr (rev acc)
      | c :: t =>
          if c =? 92 then
            match t with
            | [] => inl BadEscape
            | e :: t' =>
                match escape e with
                | inl err => inl err
                | inr a => parse_seq f t' (SINGLE a :: acc)
                end
            end
          else if c =? 123 then
            match brace t with
            | None => parse_seq f t (SINGLE (LITERAL 123) :: acc)
            | Some (lo, hi, t') =>
                match repeat_bounds lo hi with
                | inl err => inl err
                | inr (mn, mx) =>
                    match apply_repeat mn mx t' acc with
                    | inl err => inl err
                    | inr acc' => parse_seq f t' acc'
                    end
                end
            end
          else
            match simple_quant c with
            | Some (mn, mx) =>
                match apply_repeat mn mx t acc with
                | inl err => inl err
                | inr acc' => parse_seq f t acc'
                end
            | None =>
                if c =? 41 then inl UnbalancedParenthesis
                else if bool_decide (c ∈ of_ascii ".[(^$|") then inl Unsupported
                else parse_seq f t (SINGLE (LITERAL c) :: acc)
            end
      end
  end.

(** [re.compile(src)] on the fragment. *)
Definition sre_parse (src : pystr) : parse_error + pattern :=
  parse_seq (S (length src)) src [].

(** ** Fuel *)

Lemma span_digits_length (s d r : pystr) : span_digits s = (d, r) -> (length r <= length s)%nat.
Proof.
  revert d. induction s as [|c t IH]; intros d; cbn [span_digits]; [intros [= _ <-]; done|].
  destruct (is_ascii_digit c); [|intros [= _ <-]; done].
  destruct (span_digits t) as [d' r'] eqn:Ht. intros [= _ <-].
  specialize (IH _ eq_refl). simpl. lia.
Qed.

Lemma brace_length (t lo hi t' : pystr) :
  brace t = Some (lo, hi, t') -> (length t' < length t)%nat.
Proof.
  unfold brace. destruct (starts_with 125 t); [done|].
  destruct (span_digits t) as [lo0 t1] eqn:Ht. apply span_digits_length in Ht.
  lazymatch goal with
  | |- context [match ?e with (_, _) => _ end] => destruct e as [hi0 t2] eqn:Hm
  end.
  assert (H2 : (length t2 <= length t1)%nat).
  { destruct (starts_with 44 t1); [|injection Hm as _ <-; lia].
    apply span_digits_length in Hm. destruct t1; simpl in *; lia. }
  destruct (starts_with 125 t2) eqn:Hs; [|done]. intros [= _ _ <-].
  destruct t2; [done|]. simpl in *. lia.
Qed.

(** Each round reads at least one character: one round more than the
    source has characters is enough, and more change nothing. *)
Lemma parse_seq_fuel (fuel : nat) : forall fuel' src acc,
  (length src < fuel)%nat -> (length src < fuel')%nat ->
  parse_seq fuel src acc = parse_seq fuel' src acc.
Proof.
  induction fuel as [|f IH]; intros fuel' src acc Hf Hf'; [lia|].
  destruct fuel' as [|f']; [lia|]. destruct src as [|c t]; [done|]. cbn [parse_seq].
  simpl in Hf, Hf'.
  repeat case_match; try done; apply IH;
    repeat match goal with H : brace _ = Some _ |- _ => apply brace_length in H end;
    simplify_eq/=; lia.
Qed.

End SreParse.
