(* ===== verification/ReSub.v ===== *)
(** * [re.sub(pattern, repl, string)]: the reference scan

    [re.sub] scans the string from the left: at each position it looks for
    a match of the pattern; a match is replaced by [repl] and the scan
    resumes after it; otherwise the character is copied.  The matcher is
    abstract here: a function giving the length of the match at the start
    of a suffix, which must satisfy the interface [MatcherSpec] (matches
    are non-empty and lie inside the input).  The script's pattern is an
    instance ([SrtPattern]).

    [sub_spec] is the leftmost, non-overlapping replacement as a relation;
    [sub_refines] shows [sub] computes it and [sub_spec_functional] that it
    has one result.  [search] is [re.search] from a position; the loop
    that [re.sub] really runs is in [SubLoop]. *)

From Stdlib Require Import ZArith.
From stdpp Require Import base list.
From S2P Require Import Prelude.

(** What [sub] needs of a matcher. *)
Class MatcherSpec (m : pystr -> option nat) : Prop := {
  match_nonempty : forall s n, m s = Some n -> 0 < n;
  match_within : forall s n, m s = Some n -> n <= length s
}.

(** The scan: [skip] characters of an earlier match are still to be
    dropped; a match of length [S k] emits [repl] and drops its first
    character now and [k] more after. *)
Fixpoint sub_aux (m : pystr -> option nat) (repl : pystr) (skip : nat) (s : pystr)
    : pystr :=
  match s with
  | [] => []
  | c :: t =>
      match skip with
      | S k => sub_aux m repl k t
      | O =>
          match m s with
          | Some (S k) => repl ++ sub_aux m repl k t
          | _ => c :: sub_aux m repl 0 t
          end
      end
  end.

Definition sub (m : pystr -> option nat) (repl s : pystr) : pystr := sub_aux m repl 0 s.

(** [re.search(pattern, string)]: the leftmost position where the pattern
    matches, with the length of the match. *)
Fixpoint search_from (m : pystr -> option nat) (i : nat) (s : pystr) : option (nat * nat) :=
  match m s with
  | Some n => Some (i, n)
  | None =>
      match s with
      | [] => None
      | _ :: t => search_from m (S i) t
      end
  end.

Definition search (m : pystr -> option nat) (s : pystr) : option (nat * nat) :=
  search_from m 0 s.

Section Sub.
Context (m : pystr -> option nat) `{!MatcherSpec m} (repl : pystr).

(** Leftmost non-overlapping replacement. *)
Inductive sub_spec : pystr -> pystr -> Prop :=
| SS_end : sub_spec [] []
| SS_match s n out :
    m s = Some n -> sub_spec (drop n s) out -> sub_spec s (repl ++ out)
| SS_keep c t out :
    m (c :: t) = None -> sub_spec t out -> sub_spec (c :: t) (c :: out).

Lemma sub_aux_drop (k : nat) (s : pystr) : sub_aux m repl k s = sub m repl (drop k s).
Proof.
  revert k. induction s as [|c t IH]; intros [|k]; simpl; done.
Qed.

(** The two equations of the scan. *)
Lemma sub_match (s : pystr) (n : nat) :
  m s = Some n -> sub m repl s = repl ++ sub m repl (drop n s).
Proof.
  intros Hm. pose proof (match_nonempty _ _ Hm) as Hn.
  pose proof (match_within _ _ Hm) as Hl.
  destruct s as [|c t]; simpl in *; [lia|]. unfold sub. simpl. rewrite Hm.
  destruct n as [|k]; [lia|]. by rewrite sub_aux_drop.
Qed.

Lemma sub_keep (c : Z) (t : pystr) :
  m (c :: t) = None -> sub m repl (c :: t) = c :: sub m repl t.
Proof. intros Hm. unfold sub. simpl. by rewrite Hm. Qed.

(** C4: [sub] implements the specification. *)
Theorem sub_refines (s : pystr) : sub_spec s (sub m repl s).
Proof.
  induction s as [s IH] using (induction_ltof1 _ (@length Z)); unfold ltof in IH.
  destruct (m s) as [n|] eqn:Hm.
  - rewrite (sub_match s n Hm). apply (SS_match s n); [done|].
    apply IH. pose proof (match_nonempty _ _ Hm). pose proof (match_within _ _ Hm).
    rewrite length_drop. lia.
  - destruct s as [|c t]; [constructor|].
    rewrite (sub_keep c t Hm). apply SS_keep; [done|]. apply IH. simpl. lia.
Qed.

(** The specification determines the result. *)
Theorem sub_spec_functional (s o1 o2 : pystr) :
  sub_spec s o1 -> sub_spec s o2 -> o1 = o2.
Proof.
  intros H1. revert o2.
  induction H1 as [|s n out Hm _ IH|c t out Hm _ IH]; intros o2 H2.
  - inversion H2 as [|s' n' out' Hm'|]; subst; [done|].
    pose proof (match_within _ _ Hm'). pose proof (match_nonempty _ _ Hm').
    simpl in *. lia.
  - inversion H2 as [|s' n' out' Hm' H'|c' t' out' Hm' H']; subst.
    + pose proof (match_within _ _ Hm). pose proof (match_nonempty _ _ Hm).
      simpl in *. lia.
    + rewrite Hm in Hm'. simplify_eq. f_equal. by apply IH.
    + congruence.
  - inversion H2 as [|s' n' out' Hm' H'|c' t' out' Hm' H']; subst.
    + congruence.
    + f_equal. by apply IH.
Qed.

(** A prefix with no match in it is copied unchanged. *)
Lemma sub_app_nomatch (pre s : pystr) :
  (forall i, i < length pre -> m (drop i pre ++ s) = None) ->
  sub m repl (pre ++ s) = pre ++ sub m repl s.
Proof.
  induction pre as [|c pre IH]; intros Hno; [done|].
  simpl. rewrite sub_keep by exact (Hno 0 ltac:(simpl; lia)).
  f_equal. apply IH. intros i Hi. exact (Hno (S i) ltac:(simpl; lia)).
Qed.

(** A string in which the pattern is found nowhere is left unchanged. *)
Lemma sub_search_none (s : pystr) : search m s = None -> sub m repl s = s.
Proof.
  unfold search. generalize 0. induction s as [|c t IH]; intros i; [done|].
  simpl. destruct (m (c :: t)) eqn:Hm; [done|]. intros Ht.
  rewrite sub_keep by done. f_equal. by apply (IH (S i)).
Qed.
End Sub.

Lemma search_from_spec (m : pystr -> option nat) (s : pystr) (k p n : nat) :
  search_from m k s = Some (p, n) ->
  k <= p /\ m (drop (p - k) s) = Some n /\ forall j, j < p - k -> m (drop j s) = None.
Proof.
  revert k. induction s as [|c t IH]; intros k; simpl.
  - destruct (m []) eqn:Hm; [|done]. intros [= -> ->].
    rewrite Nat.sub_diag. split; [lia|]. split; [done|lia].
  - destruct (m (c :: t)) eqn:Hm.
    + intros [= -> ->]. rewrite Nat.sub_diag. split; [lia|]. split; [done|lia].
    + intros (Hk & Hd & Hj)%IH. split; [lia|].
      replace (p - k) with (S (p - S k)) by lia. split; [done|].
      intros [|j] ?; [done|]. apply Hj. lia.
Qed.

(** [search] finds the leftmost match. *)
Lemma search_spec (m : pystr -> option nat) (s : pystr) (i n : nat) :
  search m s = Some (i, n) ->
  m (drop i s) = Some n /\ forall j, j < i -> m (drop j s) = None.
Proof.
  intros (_ & Hd & Hj)%search_from_spec. rewrite Nat.sub_0_r in Hd, Hj. done.
Qed.

(** Deleting matches ([repl = '']) keeps a subsequence of the input. *)
Lemma sub_delete_sublist (m : pystr -> option nat) (s : pystr) : sub m [] s `sublist_of` s.
Proof.
  unfold sub. generalize 0%nat. induction s as [|c t IH]; intros [|k]; simpl.
  - done.
  - done.
  - destruct (m (c :: t)) as [[|k]|]; by constructor.
  - by constructor.
Qed.
