(* ===== verification/SubLoop.v ===== *)
(** * The loop of [re.sub]: [pattern_subx] of [_sre]

    [re.sub(pattern, '', content)] on line 11 runs [pattern_subx] of
    CPython's [Modules/_sre/sre.c]: a loop whose state is the end [i] of the
    last match and the list [pieces] the result is joined from.  One round
    ([subx_round]) searches from [i]; it either finds a match and moves on
    ([Run]) or appends the rest and stops ([Done]).

    [subx_loop] runs the rounds with fuel (the Rocq counterpart of the C
    loop) and [pattern_subx] joins the pieces; [subx_step] is one round as
    a step relation on [loop_state], the view in which the intermediate
    states are visible.  The theorems: every state reachable from the
    start satisfies the loop invariant (what is joined so far, followed by
    the substitution of the rest, is the substitution of the whole
    string), and the fuelled loop, given one round more than the string
    has characters, stops and computes the reference scan [sub] of
    [ReSub]. *)

From Stdlib Require Import ZArith.
From stdpp Require Import base list relations.
From S2P Require Import Prelude ReSub.

Module Subx.

(** The loop's state: [Run i pieces] before a round, [Done pieces] once the
    search has failed and the last slice is appended. *)
Inductive loop_state : Type :=
| Run (i : nat) (pieces : list pystr)
| Done (pieces : list pystr).

(** One round of the loop, for a literal replacement and no count: a
    match at [b = i + j] of length [n] contributes the slice [s[i:b]] (when
    it is not empty) and [repl], and the next round starts at its end [e];
    without a match the rest [s[i:]] (when not empty) is the last piece. *)
Definition subx_round (m : pystr -> option nat) (repl s : pystr) (i : nat)
    (pieces : list pystr) : loop_state :=
  match search m (drop i s) with
  | None => Done (if i <? length s then pieces ++ [drop i s] else pieces)
  | Some (j, n) =>
      let b := i + j in
      let e := b + n in
      let pieces' := (if i <? b then pieces ++ [take j (drop i s)] else pieces) ++ [repl] in
      Run e pieces'
  end.

(** The loop, with [fuel] bounding the number of rounds. *)
Fixpoint subx_loop (m : pystr -> option nat) (repl : pystr) (fuel : nat) (s : pystr)
    (i : nat) (pieces : list pystr) : option (list pystr) :=
  match fuel with
  | O => None
  | S fuel' =>
      match subx_round m repl s i pieces with
      | Done out => Some out
      | Run e pieces' => subx_loop m repl fuel' s e pieces'
      end
  end.

(** [re.sub(pattern, repl, s)]: the loop with one round more than the
    length of [s], then [''.join(pieces)]. *)
Definition pattern_subx (m : pystr -> option nat) (repl s : pystr) : option pystr :=
  option_map (@concat Z) (subx_loop m repl (S (length s)) s 0 []).

(** One round as a step of a transition system. *)
Inductive subx_step (m : pystr -> option nat) (repl s : pystr) : relation loop_state :=
| subx_go i pieces : subx_step m repl s (Run i pieces) (subx_round m repl s i pieces).

(** The loop invariant: the position stays inside the string, and the
    pieces joined so far followed by the substitution of the rest give the
    substitution of the whole string. *)
Definition loop_inv (m : pystr -> option nat) (repl s : pystr) (st : loop_state) : Prop :=
  match st with
  | Run i pieces => i <= length s /\ concat pieces ++ sub m repl (drop i s) = sub m repl s
  | Done out => concat out = sub m repl s
  end.

Section Loop.
Context (m : pystr -> option nat) `{!MatcherSpec m} (repl : pystr).

(** Where [search] finds its match, [sub] copies the text before it, puts
    [repl] for it, and goes on after it. *)
Lemma sub_search_some (t : pystr) (j n : nat) :
  search m t = Some (j, n) ->
  (j + n <= length t)%nat /\ (0 < n)%nat /\
  sub m repl t = take j t ++ repl ++ sub m repl (drop (j + n) t).
Proof.
  intros (Hm & Hno)%search_spec.
  pose proof (match_within _ _ Hm) as Hw. pose proof (match_nonempty _ _ Hm) as Hn.
  rewrite length_drop in Hw.
  assert (j < length t)%nat by (destruct (decide (j < length t)%nat); [done|lia]).
  split; [lia|]. split; [done|].
  rewrite <- (take_drop j t) at 1. rewrite sub_app_nomatch.
  - rewrite (sub_match m repl (drop j t) n Hm). by rewrite drop_drop.
  - intros i Hi. rewrite length_take in Hi.
    rewrite <- drop_app_le, take_drop by (rewrite length_take; lia). apply Hno. lia.
Qed.

(** What one round does: it either moves strictly forward inside the
    string, or stops; either way the joined pieces followed by the
    substitution of the rest are unchanged. *)
Lemma subx_round_spec (s : pystr) (i : nat) (pieces : list pystr) :
  i <= length s ->
  match subx_round m repl s i pieces with
  | Run e p' => i < e <= length s /\
      concat p' ++ sub m repl (drop e s) = concat pieces ++ sub m repl (drop i s)
  | Done out => concat out = concat pieces ++ sub m repl (drop i s)
  end.
Proof.
  intros Hi. unfold subx_round.
  destruct (search m (drop i s)) as [[j n]|] eqn:Hs.
  - destruct (sub_search_some _ _ _ Hs) as (Hjn & Hn & ->). rewrite length_drop in Hjn.
    split; [lia|]. rewrite drop_drop, !concat_app. cbn [concat].
    replace (i + (j + n)) with (i + j + n) by lia.
    destruct (Nat.ltb_spec i (i + j)).
    + rewrite concat_app. cbn [concat]. by rewrite !app_nil_r, <- !app_assoc.
    + replace j with 0 by lia. simpl. by rewrite app_nil_r, <- !app_assoc.
  - rewrite sub_search_none by done.
    destruct (Nat.ltb_spec i (length s)).
    + rewrite concat_app. simpl. by rewrite app_nil_r.
    + by rewrite drop_ge, !app_nil_r by lia.
Qed.

(** The loop, given more rounds than characters are left, stops and
    builds what the reference scan [sub] computes. *)
Lemma subx_loop_sub (s : pystr) (fuel : nat) :
  forall i pieces, length s - i < fuel -> i <= length s ->
  exists out, subx_loop m repl fuel s i pieces = Some out /\
              concat out = concat pieces ++ sub m repl (drop i s).
Proof.
  induction fuel as [|fuel IH]; intros i pieces Hf Hi; [lia|]. simpl.
  pose proof (subx_round_spec s i pieces Hi) as Hr.
  destruct (subx_round m repl s i pieces) as [e p'|out]; [|by eexists].
  destruct Hr as [He Hc]. destruct (IH e p') as (out & Hl & Hc'); [lia|lia|].
  exists out. split; [done|]. by rewrite Hc', Hc.
Qed.

(** One step preserves the invariant. *)
Lemma subx_step_inv (s : pystr) (st st' : loop_state) :
  loop_inv m repl s st -> subx_step m repl s st st' -> loop_inv m repl s st'.
Proof.
  intros Hinv Hst. destruct Hst as [i pieces]. destruct Hinv as [Hi Hc].
  pose proof (subx_round_spec s i pieces Hi) as Hr.
  destruct (subx_round m repl s i pieces); simpl.
  - destruct Hr as [He Hr]. split; [lia|]. by rewrite Hr.
  - by rewrite Hr.
Qed.

(** C11: Every state of [re.sub]'s loop reachable from its start satisfies
    the loop invariant: inside a round the position stays within the
    string and the pieces joined so far, followed by the substitution of
    the rest, are the substitution of the whole string; a finished loop has
    joined exactly that substitution. *)
Theorem subx_reachable_inv (s : pystr) (st : loop_state) :
  rtc (subx_step m repl s) (Run 0 []) st -> loop_inv m repl s st.
Proof.
  revert st. apply rtc_ind_r; [simpl; split; [lia|done]|].
  intros x y _ Hxy Hx. by eapply subx_step_inv.
Qed.

(** C9: CPython's [re.sub] loop computes the reference scan [sub]. *)
Theorem pattern_subx_sub (s : pystr) : pattern_subx m repl s = Some (sub m repl s).
Proof.
  unfold pattern_subx. destruct (subx_loop_sub s (S (length s)) 0 [] ltac:(lia) ltac:(lia))
    as (out & -> & Hc). simpl in *. by rewrite Hc.
Qed.
End Loop.

End Subx.
