(* ===== verification/SrtPattern.v ===== *)
(** * The script's pattern

    Line 11 of [srt_clean.py] deletes the matches of
    [r'\d+\n\d{2}:\d{2}:\d{2},\d{3} --> \d{2}:\d{2}:\d{2},\d{3}\n'].
    [srt_source] is that literal, and [srt_match] matches with what
    [SreParse.sre_parse] compiles it to; [srt_pattern_parsed] computes that
    this is [srt_pattern], in the node language of [Regex].  [srt_block] says in plain terms which
    strings it matches (a run of decimal digits, a newline, a timestamp
    line, a newline); [srt_match_spec] shows the matcher finds exactly
    those blocks, and [srt_matcher_spec] makes it an instance of
    [MatcherSpec] for [re.sub].  [sub_glues_index] and
    [sub_keeps_spaced_index] show what that means inside running text: the
    pattern is not anchored at a line start, and it wants the newline
    right after the index digits.  The
    witnesses of the [re.sub] theorems of [ReSub] and [SubLoop] are here,
    on this pattern. *)

From Stdlib Require Import ZArith String.
From stdpp Require Import base list relations.
From S2P Require Import Prelude Chars Regex SreParse ReSub SubLoop.
Import Sre SreParse Subx.

Module Srt.

(** ** The pattern *)

(** [\d+], [\n], [\d{2}], [:], ..., [\d{3}], the five literals [" --> "],
    ..., [\n], in the order of the source. *)
Definition srt_pattern : pattern := [
  REPEAT_ONE 1 None IN_DIGIT; SINGLE (LITERAL 10);
  REPEAT_ONE 2 (Some 2) IN_DIGIT; SINGLE (LITERAL 58);
  REPEAT_ONE 2 (Some 2) IN_DIGIT; SINGLE (LITERAL 58);
  REPEAT_ONE 2 (Some 2) IN_DIGIT; SINGLE (LITERAL 44);
  REPEAT_ONE 3 (Some 3) IN_DIGIT;
  SINGLE (LITERAL 32); SINGLE (LITERAL 45); SINGLE (LITERAL 45);
  SINGLE (LITERAL 62); SINGLE (LITERAL 32);
  REPEAT_ONE 2 (Some 2) IN_DIGIT; SINGLE (LITERAL 58);
  REPEAT_ONE 2 (Some 2) IN_DIGIT; SINGLE (LITERAL 58);
  REPEAT_ONE 2 (Some 2) IN_DIGIT; SINGLE (LITERAL 44);
  REPEAT_ONE 3 (Some 3) IN_DIGIT;
  SINGLE (LITERAL 10)
].

(** The raw string literal of line 11, character for character. *)
Definition srt_source : pystr :=
  of_ascii "\d+\n\d{2}:\d{2}:\d{2},\d{3} --> \d{2}:\d{2}:\d{2},\d{3}\n".

(** The match at the start of a string with the pattern [re.sub]
    compiles from [srt_source].  The literal compiles
    ([srt_pattern_parsed]): the [inl] branch, where [re.compile] would
    raise [re.error], is never taken. *)
Definition srt_match (s : pystr) : option nat :=
  match sre_parse srt_source with
  | inr p => sre_match p s
  | inl _ => None
  end.

(** ** What the pattern matches *)

Definition digits (u : pystr) : Prop := Forall (fun c => is_uni_digit c = true) u.

(** [HH:MM:SS,mmm] with decimal digits. *)
Definition time_stamp (t : pystr) : Prop :=
  exists hh mm ss ms,
    t = hh ++ 58%Z :: mm ++ 58%Z :: ss ++ 44%Z :: ms /\
    length hh = 2 /\ length mm = 2 /\ length ss = 2 /\ length ms = 3 /\
    digits hh /\ digits mm /\ digits ss /\ digits ms.

(** [" --> "] *)
Definition arrow : pystr := [32; 45; 45; 62; 32]%Z.

Definition timestamp_line (l : pystr) : Prop :=
  exists t1 t2, l = t1 ++ arrow ++ t2 /\ time_stamp t1 /\ time_stamp t2.

(** An index line and a timestamp line, each with its newline. *)
Definition srt_block (b : pystr) : Prop :=
  exists idx ts, b = idx ++ 10%Z :: ts ++ [10%Z] /\ idx <> [] /\ digits idx /\
                 timestamp_line ts.

(** ** The pattern in pieces *)

Definition time_nodes (p : pattern) : pattern :=
  REPEAT_ONE 2 (Some 2) IN_DIGIT :: SINGLE (LITERAL 58) ::
  REPEAT_ONE 2 (Some 2) IN_DIGIT :: SINGLE (LITERAL 58) ::
  REPEAT_ONE 2 (Some 2) IN_DIGIT :: SINGLE (LITERAL 44) ::
  REPEAT_ONE 3 (Some 3) IN_DIGIT :: p.

Definition lits (cs : pystr) (p : pattern) : pattern :=
  map (fun c => SINGLE (LITERAL c)) cs ++ p.

Lemma srt_pattern_eq :
  srt_pattern =
  REPEAT_ONE 1 None IN_DIGIT ::
    lits [10%Z] (time_nodes (lits arrow (time_nodes (lits [10%Z] [])))).
Proof. reflexivity. Qed.

(** ** Lemmas *)

Lemma digits_atoms (u : pystr) : atoms IN_DIGIT u <-> digits u.
Proof. done. Qed.

Lemma time_stamp_length (t : pystr) : time_stamp t -> length t = 12.
Proof.
  intros (hh & mm & ss & ms & -> & H1 & H2 & H3 & H4 & _).
  len_simpl. lia.
Qed.

Lemma timestamp_line_length (l : pystr) : timestamp_line l -> length l = 29.
Proof.
  intros (t1 & t2 & -> & H1 & H2). rewrite !length_app.
  rewrite (time_stamp_length t1 H1), (time_stamp_length t2 H2). done.
Qed.

Lemma srt_block_length (b : pystr) : srt_block b -> 31 <= length b.
Proof.
  intros (idx & ts & -> & Hne & _ & Hts). rewrite length_app. simpl.
  rewrite length_app, (timestamp_line_length ts Hts). simpl.
  destruct idx; [done|simpl; lia].
Qed.

(** Unfold the declarative meaning of a pattern into its pieces. *)
Ltac unfold_nodes_match :=
  repeat first
    [ setoid_rewrite nodes_match_single_iff | setoid_rewrite nodes_match_repeat_iff
    | setoid_rewrite nodes_match_nil_iff ].

Lemma fixed_digits (n : nat) (u : pystr) (P : Prop) :
  atoms IN_DIGIT u /\ n <= length u /\ within (Some n) (length u) /\ P <->
  (length u = n /\ digits u) /\ P.
Proof.
  simpl. rewrite digits_atoms.
  split; [intros (? & ? & ? & ?); repeat split; [lia|done..]|].
  intros [[? ?] ?]. repeat split; [done|lia..|done].
Qed.

Lemma lit_match (d c : Z) : atom_match (LITERAL d) c = true <-> c = d.
Proof. simpl. apply Z.eqb_eq. Qed.

(** The time-stamp part of the pattern, followed by a rest [p]. *)
Lemma time_stamp_nodes (p : pattern) (w : pystr) :
  nodes_match (time_nodes p) w <->
  exists t w', w = t ++ w' /\ time_stamp t /\ nodes_match p w'.
Proof.
  unfold time_nodes. unfold_nodes_match. repeat setoid_rewrite fixed_digits. repeat setoid_rewrite lit_match.
  split.
  - intros (hh & ? & -> & [Hh Dh] & ? & ? & -> & -> & mm & ? & -> & [Hm Dm] &
            ? & ? & -> & -> & ss & ? & -> & [Hs Ds] & ? & ? & -> & -> &
            ms & w' & -> & [Hms Dms] & Hw).
    exists (hh ++ 58%Z :: mm ++ 58%Z :: ss ++ 44%Z :: ms), w'.
    split; [by app_norm|]. split; [|done].
    exists hh, mm, ss, ms. done.
  - intros (t & w' & -> & (hh & mm & ss & ms & -> & Hh & Hm & Hs & Hms &
            Dh & Dm & Ds & Dms) & Hw).
    app_norm.
    eexists hh, _. split; [done|]. split; [done|].
    eexists 58%Z, _. split; [done|]. split; [done|].
    eexists mm, _. split; [done|]. split; [done|].
    eexists 58%Z, _. split; [done|]. split; [done|].
    eexists ss, _. split; [done|]. split; [done|].
    eexists 44%Z, _. split; [done|]. split; [done|].
    eexists ms, _. done.
Qed.

Lemma lits_nodes (cs : pystr) (p : pattern) (w : pystr) :
  nodes_match (lits cs p) w <-> exists w', w = cs ++ w' /\ nodes_match p w'.
Proof.
  unfold lits. revert w. induction cs as [|c cs IH]; intros w; simpl.
  - split; [eauto|by intros (w' & -> & ?)].
  - rewrite nodes_match_single_iff. setoid_rewrite IH. setoid_rewrite lit_match.
    split.
    + intros (? & ? & -> & -> & w' & -> & ?). eauto.
    + intros (w' & -> & ?). eauto 10.
Qed.

(** The declarative meaning of the whole pattern: one block. *)
Lemma srt_pattern_nodes (w : pystr) : nodes_match srt_pattern w <-> srt_block w.
Proof.
  rewrite srt_pattern_eq, nodes_match_repeat_iff.
  setoid_rewrite lits_nodes. setoid_rewrite time_stamp_nodes.
  setoid_rewrite lits_nodes. setoid_rewrite time_stamp_nodes.
  setoid_rewrite lits_nodes. setoid_rewrite nodes_match_nil_iff.
  split.
  - intros (u & ? & -> & Hu & Hlen & _ & ? & -> & t1 & ? & -> & T1 & ? & -> &
            t2 & ? & -> & T2 & ? & -> & ->).
    exists u, (t1 ++ arrow ++ t2). split; [by app_norm|].
    split; [by destruct u; simpl in *; [lia|]|]. split; [done|]. by exists t1, t2.
  - intros (idx & ts & -> & Hne & Hd & (t1 & t2 & -> & T1 & T2)). app_norm.
    eexists idx, _. split; [done|]. split; [done|].
    split; [by destruct idx; simpl; [|lia]|]. split; [done|].
    eexists; split; [done|]. eexists t1, _; split; [done|]. split; [done|].
    eexists; split; [done|]. eexists t2, _; split; [done|]. split; [done|].
    eexists; split; [done|]. done.
Qed.

(** Two blocks at the start of one string are the same block: the index
    ends at the first newline and the timestamp line has a fixed length. *)
Lemma srt_block_unique (b1 b2 r1 r2 : pystr) :
  srt_block b1 -> srt_block b2 -> b1 ++ r1 = b2 ++ r2 -> b1 = b2.
Proof.
  intros (i1 & ts1 & -> & _ & D1 & T1) (i2 & ts2 & -> & _ & D2 & T2) Heq.
  app_norm.
  destruct (app_sep_unique (fun c => is_uni_digit c = true) i1 i2
              (ts1 ++ 10%Z :: r1) (ts2 ++ 10%Z :: r2) 10%Z)
    as [-> Heq']; [by rewrite newline_not_digit|done|done|exact Heq|].
  apply app_inj_1 in Heq' as [-> _]; [done|].
  by rewrite (timestamp_line_length _ T1), (timestamp_line_length _ T2).
Qed.

(** ** The matcher of the script's pattern *)

(** [re] compiles the raw literal of line 11 to [srt_pattern]: [\d+] is a
    REPEAT_ONE with no upper bound, each [\d{n}] one with both bounds [n],
    and [\n], [:], [,] and the arrow are literals. *)
Lemma srt_pattern_parsed : sre_parse srt_source = inr srt_pattern.
Proof. by vm_compute. Qed.

Lemma srt_match_eq (s : pystr) : srt_match s = sre_match srt_pattern s.
Proof. unfold srt_match. by rewrite srt_pattern_parsed. Qed.

(** What the matcher returns is the length of a block at the start. *)
Lemma srt_match_some (s : pystr) (n : nat) :
  srt_match s = Some n -> exists b r, s = b ++ r /\ srt_block b /\ n = length b.
Proof.
  rewrite srt_match_eq. intros Hm. destruct (sre_match_sound _ _ _ Hm) as [Hle Hnm].
  apply srt_pattern_nodes in Hnm.
  exists (take n s), (drop n s). rewrite take_drop.
  split; [done|]. split; [done|]. rewrite length_take_le; lia.
Qed.

(** A block at the start is found, whole. *)
Lemma srt_match_block (b r : pystr) : srt_block b -> srt_match (b ++ r) = Some (length b).
Proof.
  intros Hb.
  destruct (sre_match_complete srt_pattern b r) as [n' Hn']; [by apply srt_pattern_nodes|].
  rewrite <- srt_match_eq in Hn'. destruct (srt_match_some _ _ Hn') as (b' & r' & Heq & Hb' & ->).
  rewrite Hn'. f_equal. f_equal.
  symmetry. by apply (srt_block_unique _ _ r r').
Qed.

(** C3: [srt_match] succeeds exactly at the start of a block, and returns the
    length of that block. *)
Theorem srt_match_spec (s : pystr) (n : nat) :
  srt_match s = Some n <-> exists b r, s = b ++ r /\ srt_block b /\ n = length b.
Proof.
  split; [apply srt_match_some|]. intros (b & r & -> & Hb & ->). by apply srt_match_block.
Qed.

Lemma srt_match_none (s : pystr) :
  srt_match s = None <-> ~ exists b r, s = b ++ r /\ srt_block b.
Proof.
  split.
  - intros Hn (b & r & -> & Hb). by rewrite srt_match_block in Hn.
  - intros Hno. destruct (srt_match s) as [n|] eqn:Hs; [|done].
    apply srt_match_some in Hs as (b & r & -> & Hb & _). exfalso. eauto.
Qed.

(** ** Deciding the shapes *)

(** The shape of a timestamp line, position by position: [None] is a
    decimal digit, [Some c] the character [c]. *)
Definition time_template : list (option Z) :=
  [None; None; Some 58; None; None; Some 58; None; None; Some 44; None; None; None]%Z.

Definition line_template : list (option Z) :=
  time_template ++ map Some arrow ++ time_template.

Definition slot_ok (o : option Z) (c : Z) : bool :=
  match o with
  | None => is_uni_digit c
  | Some d => Z.eqb c d
  end.

Fixpoint fits (tpl : list (option Z)) (l : pystr) : bool :=
  match tpl, l with
  | [], [] => true
  | o :: tpl', c :: l' => slot_ok o c && fits tpl' l'
  | _, _ => false
  end.

Lemma fits_app (t1 t2 : list (option Z)) (l : pystr) :
  fits (t1 ++ t2) l = true <->
  exists l1 l2, l = l1 ++ l2 /\ fits t1 l1 = true /\ fits t2 l2 = true.
Proof.
  revert l. induction t1 as [|o t1 IH]; intros l; simpl.
  - split; [intros H; by exists [], l|]. intros ([|] & l2 & -> & H1 & H2); done.
  - destruct l as [|c l].
    + split; [done|]. intros ([|] & l2 & Hl & H1 & H2); simplify_eq; done.
    + rewrite andb_true_iff, IH. split.
      * intros (Hc & l1 & l2 & -> & H1 & H2). exists (c :: l1), l2. simpl.
        rewrite Hc, H1. done.
      * intros ([|d l1] & l2 & Hl & H1 & H2); [done|]. simpl in Hl. simplify_eq.
        simpl in H1. apply andb_true_iff in H1 as [Hd H1]. eauto 10.
Qed.

Lemma fits_digits (n : nat) (l : pystr) :
  fits (replicate n None) l = true <-> length l = n /\ digits l.
Proof.
  revert l. induction n as [|n IH]; intros [|c l]; simpl.
  - split; [intros _; split; [done|constructor]|done].
  - split; [done|intros [? _]; done].
  - split; [done|intros [? _]; done].
  - rewrite andb_true_iff, IH. unfold digits. rewrite Forall_cons.
    split; [intros (? & -> & ?); auto|intros [[= ->] [? ?]]; auto].
Qed.

Lemma fits_lits (cs : pystr) (l : pystr) : fits (map Some cs) l = true <-> l = cs.
Proof.
  revert l. induction cs as [|d cs IH]; intros [|c l]; simpl; try done.
  rewrite andb_true_iff, IH, Z.eqb_eq. naive_solver.
Qed.

Lemma time_template_eq :
  time_template =
  replicate 2 None ++ map Some [58%Z] ++ replicate 2 None ++ map Some [58%Z] ++
  replicate 2 None ++ map Some [44%Z] ++ replicate 3 None.
Proof. reflexivity. Qed.

Lemma time_stamp_fits (t : pystr) : time_stamp t <-> fits time_template t = true.
Proof.
  rewrite time_template_eq. repeat setoid_rewrite fits_app.
  setoid_rewrite fits_digits. setoid_rewrite fits_lits. split.
  - intros (hh & mm & ss & ms & -> & ? & ? & ? & ? & ? & ? & ? & ?).
    eexists hh, _. split; [done|]. split; [done|].
    eexists [58%Z], _. split; [done|]. split; [done|].
    eexists mm, _. split; [done|]. split; [done|].
    eexists [58%Z], _. split; [done|]. split; [done|].
    eexists ss, _. split; [done|]. split; [done|].
    eexists [44%Z], _. split; [done|]. split; [done|]. done.
  - intros (hh & ? & -> & [? ?] & ? & ? & -> & -> & mm & ? & -> & [? ?] &
            ? & ? & -> & -> & ss & ? & -> & [? ?] & ? & ms & -> & -> & [? ?]).
    exists hh, mm, ss, ms. done.
Qed.

Lemma timestamp_line_fits (l : pystr) : timestamp_line l <-> fits line_template l = true.
Proof.
  unfold line_template. rewrite !fits_app. setoid_rewrite fits_app.
  setoid_rewrite <- time_stamp_fits. setoid_rewrite fits_lits. split.
  - intros (t1 & t2 & -> & T1 & T2). eexists t1, _. split; [done|]. split; [done|].
    eexists arrow, t2. done.
  - intros (t1 & ? & -> & T1 & ? & t2 & -> & -> & T2). by exists t1, t2.
Qed.

#[export] Instance timestamp_line_dec (l : pystr) : Decision (timestamp_line l).
Proof.
  destruct (fits line_template l) eqn:H.
  - left. by apply timestamp_line_fits.
  - right. rewrite timestamp_line_fits. congruence.
Defined.

Lemma fits_no_nl (tpl : list (option Z)) (l : pystr) :
  Forall (fun o => o <> Some 10%Z) tpl -> fits tpl l = true -> 10%Z ∉ l.
Proof.
  intros Htpl. revert l. induction Htpl as [|o tpl Ho _ IH]; intros [|c l]; simpl.
  - intros _. apply not_elem_of_nil.
  - done.
  - done.
  - rewrite andb_true_iff. intros [Hc Hl]. rewrite elem_of_cons.
    intros [<-|Hin]; [|by eapply IH].
    destruct o as [d|]; cbn [slot_ok] in Hc.
    + apply Z.eqb_eq in Hc. congruence.
    + by rewrite newline_not_digit in Hc.
Qed.

Lemma timestamp_line_no_nl (l : pystr) : timestamp_line l -> 10%Z ∉ l.
Proof.
  intros H%timestamp_line_fits. revert H. apply fits_no_nl.
  apply (bool_decide_unpack _). by vm_compute.
Qed.

Lemma timestamp_line_nil : ~ timestamp_line [].
Proof. intros H%timestamp_line_length. done. Qed.

Lemma digits_no_nl (u : pystr) : digits u -> Forall (fun c => c <> 10%Z) u.
Proof.
  intros Hu. eapply Forall_impl; [exact Hu|]. intros c Hc ->.
  by rewrite newline_not_digit in Hc.
Qed.

#[export] Instance srt_matcher_spec : MatcherSpec srt_match.
Proof.
  split.
  - intros s n (b & r & -> & Hb & ->)%srt_match_some.
    pose proof (srt_block_length b Hb). lia.
  - intros s n (b & r & -> & Hb & ->)%srt_match_some. rewrite length_app. lia.
Qed.

(** ** Where the pattern matches in running text *)

(** C14: The pattern is not anchored at the start of a line: digits at the end
    of a text line, followed by a timestamp line, are taken for an index.
    The block is deleted together with the newline that ended the text, so
    the text is glued to the line after the timestamp. *)
Theorem sub_glues_index (pre idx ts rest : pystr) :
  10%Z ∉ pre -> is_uni_digit <$> last pre <> Some true ->
  idx <> [] -> digits idx -> timestamp_line ts ->
  sub srt_match [] (pre ++ idx ++ 10%Z :: ts ++ 10%Z :: rest) = pre ++ sub srt_match [] rest.
Proof.
  intros Hpre Hlast Hne Hd Hts. rewrite (sub_app_nomatch srt_match [] pre).
  - assert (idx ++ 10%Z :: ts ++ 10%Z :: rest = (idx ++ 10%Z :: ts ++ [10%Z]) ++ rest)
      as -> by (by app_norm).
    rewrite (sub_match srt_match [] _ (length (idx ++ 10%Z :: ts ++ [10%Z]))).
    + by rewrite drop_app_length.
    + apply srt_match_block. by exists idx, ts.
  - intros i Hi. apply srt_match_none.
    intros (b & r & Heq & (idx' & ts' & -> & _ & Hd' & _)). app_norm.
    rewrite (app_assoc (drop i pre) idx) in Heq.
    destruct (app_sep_unique (fun c => c <> 10%Z) (drop i pre ++ idx) idx'
                (ts ++ 10%Z :: rest) (ts' ++ 10%Z :: r) 10%Z) as [Hidx _];
      [tauto| |by apply digits_no_nl|done|].
    { apply Forall_app. split; [by apply Forall_drop, not_elem_of_Forall_neq|by apply digits_no_nl]. }
    destruct (exists_last (l := pre)) as (u & d & ->); [intros ->; simpl in Hi; lia|].
    rewrite last_snoc in Hlast. rewrite length_app in Hi. simpl in Hi.
    rewrite drop_app_le in Hidx by lia. rewrite <- Hidx in Hd'.
    apply Forall_app in Hd' as [Hd' _]. apply Forall_app in Hd' as [_ Hd'].
    apply Forall_cons in Hd' as [Hd' _]. simpl in Hlast. by rewrite Hd' in Hlast.
Qed.

(** A block starts with a digit: no match starts at any other character. *)
Lemma no_block_nondigit (c : Z) (r : pystr) : is_uni_digit c = false -> srt_match (c :: r) = None.
Proof.
  intros Hc. apply srt_match_none. intros (b & r' & Hb & (idx & ts & -> & Hne & Hd & _)).
  destruct idx as [|d idx]; [done|]. simpl in Hb. injection Hb as <- _.
  apply Forall_cons in Hd as [Hd _]. by rewrite Hd in Hc.
Qed.

(** C16: An index line with trailing whitespace (spaces or tabs) is not the
    start of a block, since the pattern wants the newline right after the
    digits: [re.sub] keeps the digits, the whitespace and the newline, and
    goes on after them, so the timestamp line that follows is not removed
    with them. *)
Theorem sub_keeps_spaced_index (idx ws rest : pystr) :
  digits idx -> ws <> [] -> Forall (fun c => py_isspace c = true) ws -> 10%Z ∉ ws ->
  sub srt_match [] (idx ++ ws ++ 10%Z :: rest) = idx ++ ws ++ 10%Z :: sub srt_match [] rest.
Proof.
  intros Hd Hne Hsp Hn.
  assert (Hnd : Forall (fun c => is_uni_digit c = false) (ws ++ [10%Z])).
  { apply Forall_app. split; [|by repeat constructor].
    eapply Forall_impl; [exact Hsp|]. intros c. apply isspace_not_digit. }
  assert (E : idx ++ ws ++ 10%Z :: rest = (idx ++ ws ++ [10%Z]) ++ rest) by (by app_norm).
  rewrite E, sub_app_nomatch; [by app_norm|]. intros i Hi.
  destruct (decide (i < length idx)%nat) as [Hlt|Hge].
  - rewrite drop_app_le by lia. apply srt_match_none.
    intros (b & r & Heq & (idx' & ts & -> & _ & Hd' & _)).
    destruct ws as [|w ws']; [done|]. app_norm.
    destruct (app_first_unique (fun c => is_uni_digit c = true) (drop i idx) idx'
                (ws' ++ 10%Z :: rest) (ts ++ 10%Z :: r) w 10%Z) as (_ & -> & _).
    + inv Hsp. rewrite isspace_not_digit by done. done.
    + by rewrite newline_not_digit.
    + by apply Forall_drop.
    + done.
    + done.
    + apply Hn. apply list_elem_of_here.
  - rewrite drop_app_ge by lia. rewrite !length_app in Hi. simpl in Hi.
    pose proof (Forall_drop _ (i - length idx) _ Hnd) as Hdr.
    destruct (drop (i - length idx) (ws ++ [10%Z])) as [|c t] eqn:Hc.
    + apply (f_equal length) in Hc. rewrite length_drop, !length_app in Hc. simpl in Hc. lia.
    + apply no_block_nondigit. by inv Hdr.
Qed.

Lemma sub_keeps_spaced_index_witness :
  let idx := of_ascii "12" in
  let ws := [32; 9]%Z in
  let rest := unlines ["00:00:01,000 --> 00:00:02,000"; "Hello"]%string in
  (digits idx /\ ws <> [] /\ Forall (fun c => py_isspace c = true) ws /\ 10%Z ∉ ws) /\
  sub srt_match [] (idx ++ ws ++ 10%Z :: rest) = idx ++ ws ++ 10%Z :: sub srt_match [] rest /\
  sub srt_match [] rest = rest.
Proof.
  intros idx ws rest.
  assert (H : digits idx /\ ws <> [] /\ Forall (fun c => py_isspace c = true) ws /\ 10%Z ∉ ws)
    by (unfold digits; apply (bool_decide_unpack _); by vm_compute).
  destruct H as (H1 & H2 & H3 & H4). split; [done|].
  split; [exact (sub_keeps_spaced_index idx ws rest H1 H2 H3 H4)|]. by vm_compute.
Defined.

(** ** [re.sub] and [re.search] with the script's pattern *)

(** A text line, a block and another text line. *)
Definition example_doc : pystr := unlines ["x"; "1"; "00:00:01,000 --> 00:00:02,000"; "Hi"]%string.

Lemma sub_refines_witness :
  MatcherSpec srt_match /\ sub_spec srt_match [] example_doc (sub srt_match [] example_doc).
Proof. split; [apply _|]. apply sub_refines, _. Defined.

Lemma pattern_subx_sub_witness :
  MatcherSpec srt_match /\
  pattern_subx srt_match [] example_doc = Some (sub srt_match [] example_doc) /\
  sub srt_match [] example_doc = unlines ["x"; "Hi"]%string.
Proof.
  split; [apply _|]. split; [apply pattern_subx_sub, _|]. by vm_compute.
Defined.

Lemma subx_reachable_inv_witness :
  MatcherSpec srt_match /\
  rtc (subx_step srt_match [] example_doc) (Run 0 []) (subx_round srt_match [] example_doc 0 []) /\
  loop_inv srt_match [] example_doc (subx_round srt_match [] example_doc 0 []).
Proof.
  assert (H : rtc (subx_step srt_match [] example_doc) (Run 0 [])
                (subx_round srt_match [] example_doc 0 [])) by (apply rtc_once; constructor).
  split; [apply _|]. split; [done|]. exact (subx_reachable_inv srt_match [] example_doc _ H).
Defined.

End Srt.
