(* ===== verification/Dedup.v ===== *)
(** * Order-preserving de-duplication (lines 17-21)

    {[
    unique_lines = []
    for line in lines:
        if line not in unique_lines:
            unique_lines.append(line)
    ]}
    [dedup_loop] is the loop with the list built so far as its state;
    [unique_lines] starts it from the empty list.  The reference
    specification [nub] keeps the head of a list and removes it from the
    rest; [unique_lines_nub] proves the loop computes it, and the
    correctness facts are proved of [nub].  [dedup_set] is the variant with
    a seen-set that the design notes suggest; [dedup_set_correct] proves it
    gives the same result. *)

From stdpp Require Import base list gmap.
From S2P Require Import Prelude.

Module Dedup.

Section Dedup.
Context {A : Type} `{EqDecision A}.

(** ** The loop of the script *)

Fixpoint dedup_loop (unique : list A) (lines : list A) : list A :=
  match lines with
  | [] => unique
  | line :: rest =>
      dedup_loop
        (if bool_decide (line ∈ unique) then unique else unique ++ [line]) rest
  end.

Definition unique_lines (lines : list A) : list A := dedup_loop [] lines.

(** ** Reference specification *)

(** The first element, then the de-duplicated rest without it. *)
Fixpoint nub (l : list A) : list A :=
  match l with
  | [] => []
  | x :: xs => x :: filter (fun y => y <> x) (nub xs)
  end.

(** ** The loop computes [nub] *)

(** The invariant of the loop: after the prefix that produced [unique],
    the result is [unique] followed by the first occurrences in the rest
    that [unique] does not hold yet. *)
Lemma dedup_loop_nub (unique lines : list A) :
  dedup_loop unique lines = unique ++ filter (fun y => y ∉ unique) (nub lines).
Proof.
  revert unique. induction lines as [|x xs IH]; intros unique; simpl.
  - by rewrite app_nil_r.
  - rewrite IH. case_bool_decide as Hx.
    + rewrite filter_cons_False by naive_solver.
      f_equal. rewrite list_filter_filter. apply list_filter_iff. naive_solver.
    + rewrite filter_cons_True by done. rewrite <- app_assoc. simpl. do 2 f_equal.
      rewrite list_filter_filter. apply list_filter_iff.
      intros y. rewrite elem_of_app, list_elem_of_singleton. naive_solver.
Qed.

Lemma unique_lines_nub (lines : list A) : unique_lines lines = nub lines.
Proof.
  unfold unique_lines. rewrite dedup_loop_nub. simpl.
  apply filter_id, Forall_forall. intros y _. apply not_elem_of_nil.
Qed.

(** ** Properties of [nub] *)

Lemma elem_of_nub (l : list A) (x : A) : x ∈ nub l <-> x ∈ l.
Proof.
  induction l as [|y l IH]; simpl; [done|].
  rewrite !elem_of_cons, list_elem_of_filter, IH.
  destruct (decide (x = y)); naive_solver.
Qed.

Lemma NoDup_nub (l : list A) : NoDup (nub l).
Proof.
  induction l as [|x l IH]; simpl; [constructor|].
  apply NoDup_cons. split.
  - rewrite list_elem_of_filter. naive_solver.
  - by apply NoDup_filter.
Qed.

Lemma nub_sublist (l : list A) : nub l `sublist_of` l.
Proof.
  induction l as [|x l IH]; simpl; [constructor|].
  apply sublist_skip. etransitivity; [apply sublist_filter|done].
Qed.

Lemma nub_NoDup_id (l : list A) : NoDup l -> nub l = l.
Proof.
  induction 1 as [|x l Hx _ IH]; simpl; [done|]. rewrite IH. f_equal.
  apply filter_id, Forall_forall. intros y Hy ->. done.
Qed.

(** ** Correctness of the loop *)

Lemma dedup_loop_app (unique l1 l2 : list A) :
  dedup_loop unique (l1 ++ l2) = dedup_loop (dedup_loop unique l1) l2.
Proof. revert unique. induction l1; intros unique; simpl; auto. Qed.

(** C5: The loop's result has no repeated line, holds exactly the lines of
    its input, and keeps them in their input order. *)
Theorem unique_lines_correct (lines : list A) :
  NoDup (unique_lines lines) /\
  (forall x, x ∈ unique_lines lines <-> x ∈ lines) /\
  unique_lines lines `sublist_of` lines.
Proof.
  rewrite unique_lines_nub.
  split; [apply NoDup_nub|split; [apply elem_of_nub|apply nub_sublist]].
Qed.

(** C32: First occurrences win: the result for [l1 ++ l2] is the result for
    [l1] followed by the lines of [l2]'s result that [l1] does not
    contain. *)
Theorem unique_lines_app (l1 l2 : list A) :
  unique_lines (l1 ++ l2) =
  unique_lines l1 ++ filter (fun y => y ∉ l1) (unique_lines l2).
Proof.
  unfold unique_lines at 1. rewrite dedup_loop_app, dedup_loop_nub.
  fold (unique_lines l1). rewrite (unique_lines_nub l2). f_equal.
  apply list_filter_iff. intros y. rewrite unique_lines_nub, elem_of_nub. done.
Qed.

(** ** The seen-set variant *)

Context {HA : Countable A}.

Fixpoint dedup_set (seen : gset A) (l : list A) : list A :=
  match l with
  | [] => []
  | x :: xs =>
      if bool_decide (x ∈ seen) then dedup_set seen xs
      else x :: dedup_set ({[x]} ∪ seen) xs
  end.

Lemma dedup_set_filter (seen : gset A) (l : list A) :
  dedup_set seen l = filter (fun y => y ∉ seen) (nub l).
Proof.
  revert seen. induction l as [|x l IH]; intros seen; simpl; [done|].
  rewrite !IH. case_bool_decide as Hx.
  - rewrite filter_cons_False by naive_solver.
    rewrite list_filter_filter. apply list_filter_iff. set_solver.
  - rewrite filter_cons_True by done. f_equal.
    rewrite list_filter_filter. apply list_filter_iff. set_solver.
Qed.

(** C31: The seen-set implementation gives the loop's result. *)
Theorem dedup_set_correct (lines : list A) : dedup_set ∅ lines = unique_lines lines.
Proof.
  rewrite dedup_set_filter, unique_lines_nub.
  apply filter_id, Forall_forall. intros y _. apply not_elem_of_empty.
Qed.
End Dedup.

End Dedup.
