(* ===== verification/Converter.v ===== *)
(** * [srt_to_text] on the decoded text (lines 9-26)

    [srt_to_text_content] composes the script's steps as the script does:
    [re.sub] with the script's pattern (lines 10-11), [split('\n')] and the
    comprehension that strips and drops empty lines (lines 14-15), the
    de-duplication loop (lines 18-21) and [' '.join] (line 24).

    A well-formed subtitle document is described by a list of [cue]s;
    [render] prints them as an .srt file does.  The main theorem
    [srt_to_text_cues] says what the script returns for such a document:
    the first occurrences of its stripped, non-empty text lines, joined by
    single spaces.  The other theorems state the output's shape and
    length and what an empty or whitespace-only input gives;
    [srt_to_text_lead] shows that a first code point that is neither
    whitespace nor a digit (a byte order mark) heads the output.  The
    witness of [Srt.sub_glues_index] shows the whole conversion gluing a
    text line to the next one. *)

From Stdlib Require Import ZArith String.
From stdpp Require Import base list.
From S2P Require Import Prelude Chars PyStr Regex ReSub SrtPattern Dedup.
Import Srt.

Module Converter.

(** ** The script's steps *)

(** Lines 14-15: [[line.strip() for line in parts if line.strip()]]. *)
Definition clean_lines (parts : list pystr) : list pystr :=
  map Str.strip (filter (fun line => Str.strip line <> []) parts).

(** Lines 9-26 once [content] has been read. *)
Definition srt_to_text_content (content : pystr) : pystr :=
  let cleaned_content := sub srt_match [] content in
  let lines := clean_lines (Str.split 10 cleaned_content) in
  let unique_lines := Dedup.unique_lines lines in
  Str.join [32%Z] unique_lines.

(** ** Well-formed subtitle documents *)

Record cue : Type := {
  cue_index : pystr;
  cue_times : pystr;
  cue_text : list pystr
}.

(** Lines, each followed by a newline. *)
Definition terminated (ls : list pystr) : pystr := concat (map (fun l => l ++ [10%Z]) ls).

(** A cue: its index line, its timestamp line, its text lines and the blank
    line that ends it. *)
Definition render_cue (c : cue) : pystr :=
  cue_index c ++ 10%Z :: cue_times c ++ 10%Z :: terminated (cue_text c) ++ [10%Z].

Definition render (cs : list cue) : pystr := concat (map render_cue cs).

(** A text line holds no newline and is not itself a timestamp line. *)
Definition line_ok (l : pystr) : Prop := (10%Z ∉ l) /\ ~ timestamp_line l.

Definition cue_wf (c : cue) : Prop :=
  cue_index c <> [] /\ digits (cue_index c) /\ timestamp_line (cue_times c) /\
  Forall line_ok (cue_text c).

#[export] Instance cue_wf_dec (c : cue) : Decision (cue_wf c).
Proof. unfold cue_wf, line_ok, digits. apply _. Defined.

(** ** Where the pattern cannot match *)

(** Not at a newline: a block starts with a digit. *)
Lemma no_block_nl (r : pystr) : srt_match (10%Z :: r) = None.
Proof. apply no_block_nondigit, newline_not_digit. Qed.

(** Not inside a line whose next line is not a timestamp line. *)
Lemma no_block_line (l next r : pystr) (j : nat) :
  10%Z ∉ l -> 10%Z ∉ next -> ~ timestamp_line next ->
  srt_match (drop j l ++ 10%Z :: next ++ 10%Z :: r) = None.
Proof.
  intros Hl Hn Hts. apply srt_match_none.
  intros (b & r' & Heq & (idx & ts & -> & _ & Hd & Hts')). app_norm.
  destruct (app_sep_unique (fun c => c <> 10%Z) (drop j l) idx
              (next ++ 10%Z :: r) (ts ++ 10%Z :: r') 10%Z) as [_ Heq'];
    [tauto|by apply Forall_drop, not_elem_of_Forall_neq|by apply digits_no_nl|done|].
  destruct (app_sep_unique (fun c => c <> 10%Z) next ts r r' 10%Z) as [-> _];
    [tauto|by apply not_elem_of_Forall_neq|
     by apply not_elem_of_Forall_neq, timestamp_line_no_nl|done|done].
Qed.

(** ** [re.sub] on a well-formed document *)

(** Text lines followed by a blank line are copied unchanged. *)
Lemma sub_lines (ls : list pystr) (rest : pystr) :
  Forall line_ok ls ->
  sub srt_match [] (terminated ls ++ 10%Z :: rest) =
  terminated ls ++ 10%Z :: sub srt_match [] rest.
Proof.
  induction 1 as [|l ls [Hl Hts] Hls IH].
  - apply sub_keep, no_block_nl.
  - unfold terminated in *. simpl. app_norm.
    rewrite (sub_app_nomatch srt_match [] l).
    { rewrite sub_keep by apply no_block_nl. by rewrite IH. }
    intros i _. destruct Hls as [|l' ls' [Hl' Hts'] _]; simpl.
    + apply (no_block_line l [] rest i); [done|apply not_elem_of_nil|apply timestamp_line_nil].
    + app_norm. by apply no_block_line.
Qed.

(** A cue loses its index and timestamp lines. *)
Lemma sub_render_cue (c : cue) (rest : pystr) :
  cue_wf c ->
  sub srt_match [] (render_cue c ++ rest) =
  terminated (cue_text c) ++ 10%Z :: sub srt_match [] rest.
Proof.
  intros (Hne & Hd & Hts & Hls).
  assert (render_cue c ++ rest =
          (cue_index c ++ 10%Z :: cue_times c ++ [10%Z]) ++
          (terminated (cue_text c) ++ 10%Z :: rest)) as ->
    by (unfold render_cue; by app_norm).
  rewrite (sub_match srt_match [] _ (length (cue_index c ++ 10%Z :: cue_times c ++ [10%Z]))).
  - rewrite drop_app_length. simpl. by apply sub_lines.
  - apply srt_match_block. by exists (cue_index c), (cue_times c).
Qed.

Lemma sub_render (cs : list cue) :
  Forall cue_wf cs ->
  sub srt_match [] (render cs) = terminated (concat (map (fun c => cue_text c ++ [[]]) cs)).
Proof.
  induction 1 as [|c cs Hc _ IH]; [done|].
  unfold render. simpl. rewrite sub_render_cue by done. fold (render cs). rewrite IH.
  unfold terminated. rewrite !map_app, !concat_app. simpl. by app_norm.
Qed.

(** ** Splitting, stripping and de-duplicating *)

Lemma split_terminated (ls : list pystr) :
  Forall (fun l => 10%Z ∉ l) ls -> Str.split 10 (terminated ls) = ls ++ [[]].
Proof.
  induction 1 as [|l ls Hl _ IH]; [done|]. unfold terminated in *. simpl. app_norm.
  rewrite Str.split_app_sep, Str.split_no_sep, IH by done. done.
Qed.

Lemma clean_lines_app (l1 l2 : list pystr) :
  clean_lines (l1 ++ l2) = clean_lines l1 ++ clean_lines l2.
Proof. unfold clean_lines. by rewrite filter_app, map_app. Qed.

(** A line of whitespace only is dropped. *)
Lemma clean_lines_blank (l : pystr) : Forall Str.is_space l -> clean_lines [l] = [].
Proof.
  intros H. unfold clean_lines. rewrite filter_cons_False; [done|].
  intros Hne. apply Hne, Str.strip_nil_iff, H.
Qed.

Lemma cues_lines_no_nl (cs : list cue) :
  Forall cue_wf cs ->
  Forall (fun l => 10%Z ∉ l) (concat (map (fun c => cue_text c ++ [[]]) cs)).
Proof.
  induction 1 as [|c cs (_ & _ & _ & Hls) _ IH]; simpl; [constructor|].
  apply Forall_app. split; [|done]. apply Forall_app. split.
  - eapply Forall_impl; [exact Hls|]. by intros l [? _].
  - repeat constructor. apply not_elem_of_nil.
Qed.

Lemma clean_lines_cues (cs : list cue) :
  clean_lines (concat (map (fun c => cue_text c ++ [[]]) cs)) =
  clean_lines (concat (map cue_text cs)).
Proof.
  induction cs as [|c cs IH]; [done|]. simpl.
  rewrite !clean_lines_app, IH, clean_lines_blank by constructor. by rewrite app_nil_r.
Qed.

(** A piece of the output: no newline, non-whitespace at both ends. *)
Definition piece_ok (p : pystr) : Prop :=
  (10%Z ∉ p) /\ (exists c t, p = c :: t /\ py_isspace c = false) /\
  (exists u d, p = u ++ [d] /\ py_isspace d = false).

Lemma strip_piece (x : pystr) : 10%Z ∉ x -> Str.strip x <> [] -> piece_ok (Str.strip x).
Proof.
  intros Hx Hne. destruct (Str.strip x) as [|c t] eqn:Hs; [done|].
  destruct (Str.strip_ends x c t Hs) as [Hc Hl]. split; [|split].
  - intros Hin. apply Hx. destruct (Str.strip_shape x) as (l & r & Hxe & _ & _).
    rewrite Hxe, Hs, !elem_of_app. auto.
  - eauto.
  - destruct (exists_last (l := c :: t)) as (u & d & Hud); [done|].
    exists u, d. split; [done|]. by apply (Hl u d).
Qed.

Lemma clean_lines_pieces (parts : list pystr) :
  Forall (fun p => 10%Z ∉ p) parts -> Forall piece_ok (clean_lines parts).
Proof.
  intros Hparts. unfold clean_lines. apply Forall_map, Forall_forall.
  intros x (Hne & Hx)%list_elem_of_filter. apply strip_piece; [|done].
  rewrite Forall_forall in Hparts. by apply Hparts.
Qed.

Lemma Forall_nub (P : pystr -> Prop) (l : list pystr) : Forall P l -> Forall P (Dedup.nub l).
Proof.
  rewrite !Forall_forall. intros H x Hx. apply H. by apply (Dedup.elem_of_nub l x).
Qed.

(** ** What the script returns *)

(** C1: On a well-formed subtitle document the script returns the stripped,
    non-empty text lines of the cues, each kept at its first occurrence,
    joined by single spaces: the index and timestamp lines and the blank
    lines are gone. *)
Theorem srt_to_text_cues (cs : list cue) :
  Forall cue_wf cs ->
  srt_to_text_content (render cs) =
  Str.join [32%Z] (Dedup.nub (clean_lines (concat (map cue_text cs)))).
Proof.
  intros Hcs. unfold srt_to_text_content. cbv zeta. rewrite sub_render by done.
  rewrite split_terminated by (by apply cues_lines_no_nl).
  rewrite clean_lines_app, clean_lines_blank, app_nil_r by constructor.
  by rewrite clean_lines_cues, Dedup.unique_lines_nub.
Qed.

(** The example of the design notes: three cues, the first two with the
    same text. *)
Definition spec_example : list cue := [
  {| cue_index := of_ascii "1"; cue_times := of_ascii "00:00:01,000 --> 00:00:02,000";
     cue_text := [of_ascii "Hello world"] |};
  {| cue_index := of_ascii "2"; cue_times := of_ascii "00:00:03,000 --> 00:00:04,000";
     cue_text := [of_ascii "Hello world"] |};
  {| cue_index := of_ascii "3"; cue_times := of_ascii "00:00:05,500 --> 00:00:06,000";
     cue_text := [of_ascii "Goodbye"] |}
]%string.

Lemma srt_to_text_cues_witness :
  Forall cue_wf spec_example /\
  srt_to_text_content (render spec_example) = of_ascii "Hello world Goodbye".
Proof.
  assert (H : Forall cue_wf spec_example) by (apply (bool_decide_unpack _); by vm_compute).
  split; [exact H|]. rewrite (srt_to_text_cues spec_example H). by vm_compute.
Defined.

Lemma clean_lines_all_blank (parts : list pystr) :
  Forall (Forall Str.is_space) parts -> clean_lines parts = [].
Proof.
  induction 1 as [|l ls Hl _ IH]; [done|].
  change (l :: ls) with ([l] ++ ls). by rewrite clean_lines_app, clean_lines_blank, IH.
Qed.

(** C22: An empty file, or one holding only whitespace, converts to the
    empty string. *)
Theorem srt_to_text_blank (content : pystr) :
  Forall Str.is_space content -> srt_to_text_content content = [].
Proof.
  intros Hc. unfold srt_to_text_content. cbv zeta.
  assert (Hs : Forall Str.is_space (sub srt_match [] content)).
  { apply Forall_forall. intros x Hx. apply (proj1 (Forall_forall _ _) Hc).
    exact (sublist_subseteq _ _ (sub_delete_sublist srt_match content) x Hx). }
  rewrite clean_lines_all_blank; [done|].
  apply Forall_forall. intros p Hp. apply Forall_forall. intros x Hx.
  apply (proj1 (Forall_forall _ _) Hs). exact (Str.split_elem_of _ _ _ p Hp Hx).
Qed.

Lemma srt_to_text_blank_witness :
  Forall Str.is_space [32; 10; 9; 13; 10]%Z /\ srt_to_text_content [32; 10; 9; 13; 10]%Z = [].
Proof.
  assert (H : Forall Str.is_space [32; 10; 9; 13; 10]%Z)
    by (unfold Str.is_space; apply (bool_decide_unpack _); by vm_compute).
  split; [done|]. exact (srt_to_text_blank _ H).
Defined.

(** A first code point that is neither whitespace nor a digit (a byte
    order mark, a letter) starts no block and survives [strip()]: it is
    the first code point of the output. *)
Lemma srt_to_text_lead (c : Z) (content : pystr) :
  is_uni_digit c = false -> py_isspace c = false ->
  exists t, srt_to_text_content (c :: content) = c :: t.
Proof.
  intros Hd Hs. unfold srt_to_text_content. cbv zeta.
  rewrite sub_keep by (by apply no_block_nondigit).
  assert (Hc : c <> 10%Z) by (intros ->; by rewrite newline_isspace in Hs).
  destruct (Str.split_cons_nonsep 10 c (sub srt_match [] content) Hc) as (p & ps & ->).
  destruct (Str.strip_cons_nonspace c p Hs) as (q & Hq).
  unfold clean_lines. rewrite filter_cons_True by (by rewrite Hq). cbn [map]. rewrite Hq.
  rewrite Dedup.unique_lines_nub. cbn [Dedup.nub].
  match goal with
  | |- exists t, Str.join _ ((c :: q) :: ?xs) = _ =>
      destruct (Str.join_head [32%Z] xs c q) as [r ->]; by exists r
  end.
Qed.

(** C6: The output is one paragraph: it holds no newline and neither starts
    nor ends with whitespace. *)
Theorem srt_to_text_paragraph (content : pystr) :
  (10%Z ∉ srt_to_text_content content) /\
  (forall c t, srt_to_text_content content = c :: t -> py_isspace c = false) /\
  (forall u d, srt_to_text_content content = u ++ [d] -> py_isspace d = false).
Proof.
  unfold srt_to_text_content. cbv zeta. rewrite Dedup.unique_lines_nub.
  assert (Hp : Forall piece_ok (Dedup.nub (clean_lines (Str.split 10 (sub srt_match [] content)))))
    by (apply Forall_nub, clean_lines_pieces, Str.split_pieces).
  remember (Dedup.nub _) as xs eqn:Hxs. clear Hxs. split; [|split].
  - intros Hin. apply Str.join_elem_of in Hin as [Hin|Hin].
    + by apply list_elem_of_singleton in Hin.
    + apply Exists_exists in Hin as (p & Hpx & Hin). rewrite Forall_forall in Hp.
      by destruct (Hp p Hpx) as [Hn _].
  - intros c t Hj. destruct xs as [|p xs]; [done|].
    apply Forall_cons in Hp as [(_ & (c' & t' & -> & Hc') & _) _].
    destruct (Str.join_head [32%Z] xs c' t') as [r Hr]. rewrite Hr in Hj.
    by injection Hj as <- _.
  - intros u d Hj. induction xs as [|p xs _] using rev_ind; [by destruct u|].
    apply Forall_app in Hp as [_ Hp]. apply Forall_cons in Hp as [(_ & _ & (u' & d' & -> & Hd')) _].
    destruct (Str.join_last [32%Z] xs u' d') as [r Hr]. rewrite Hr in Hj.
    by apply app_inj_tail in Hj as [_ <-].
Qed.

(** Every code point of the output is a space or a code point of the
    input. *)
Lemma srt_to_text_chars (content : pystr) (x : Z) :
  x ∈ srt_to_text_content content -> x = 32%Z \/ x ∈ content.
Proof.
  unfold srt_to_text_content. cbv zeta. rewrite Dedup.unique_lines_nub.
  intros [Hx|Hx]%Str.join_elem_of; [left; by apply list_elem_of_singleton|right].
  apply Exists_exists in Hx as (p & Hp & Hx).
  apply (proj1 (Dedup.elem_of_nub _ p)) in Hp. unfold clean_lines in Hp.
  apply list_elem_of_In, in_map_iff in Hp as (q & <- & Hq).
  apply list_elem_of_In, list_elem_of_filter in Hq as [_ Hq].
  apply Str.strip_elem_of, (Str.split_elem_of 10 _ x q Hq) in Hx.
  exact (elem_of_sublist _ _ _ Hx (sub_delete_sublist srt_match content)).
Qed.

(** ** Size of the output *)

(** Dropping blank lines and stripping the others removes weight and
    lines. *)
Lemma clean_lines_weight (w : Z -> nat) (parts : list pystr) :
  sum_list (map (weight w) (clean_lines parts)) <= sum_list (map (weight w) parts) /\
  length (clean_lines parts) <= length parts.
Proof.
  unfold clean_lines. induction parts as [|x parts IH]; simpl; [lia|].
  rewrite filter_cons. case_decide; simpl; pose proof (Str.strip_weight w x); lia.
Qed.

(** The output weighs at most what the input does, for any weight that
    counts a space no more than a newline: each kept line is a stripped
    piece of the text left by [re.sub], and the spaces between them stand
    for newlines between the pieces. *)
Lemma srt_to_text_weight (w : Z -> nat) (content : pystr) :
  w 32%Z <= w 10%Z -> weight w (srt_to_text_content content) <= weight w content.
Proof.
  intros Hw. unfold srt_to_text_content. cbv zeta. rewrite Dedup.unique_lines_nub.
  pose proof (weight_sublist w _ _ (sub_delete_sublist srt_match content)) as Hsub.
  rewrite <- (Str.join_split 10 (sub srt_match [] content)), Str.join_weight in Hsub.
  set (xs := Str.split 10 (sub srt_match [] content)) in *.
  pose proof (Dedup.nub_sublist (clean_lines xs)) as Hn.
  pose proof (sublist_sum_le (weight w) _ _ Hn). pose proof (sublist_length _ _ Hn).
  destruct (clean_lines_weight w xs) as [Hs Hl].
  assert (E : forall c, weight w [c] = w c) by (intros c; unfold weight; simpl; lia).
  rewrite Str.join_weight, E. rewrite E in Hsub.
  assert (Hp : pred (length (Dedup.nub (clean_lines xs))) <= pred (length xs)) by lia.
  pose proof (Nat.mul_le_mono _ _ _ _ Hw Hp). lia.
Qed.

(** C12: The text [srt_to_text] returns is never longer than the text it
    read. *)
Theorem srt_to_text_length_le (content : pystr) :
  length (srt_to_text_content content) <= length content.
Proof. rewrite <- !weight_one. by apply srt_to_text_weight. Qed.

(** ** Behaviours the modelling exposed *)

Lemma sub_glues_index_witness :
  let pre := of_ascii "Chapter "%string in
  let idx := of_ascii "12"%string in
  let ts := of_ascii "00:00:01,000 --> 00:00:02,000"%string in
  let rest := unlines ["Hello"%string] in
  ((10%Z ∉ pre) /\ is_uni_digit <$> last pre <> Some true /\ idx <> [] /\ digits idx /\
   timestamp_line ts) /\
  sub srt_match [] (pre ++ idx ++ 10%Z :: ts ++ 10%Z :: rest) = pre ++ sub srt_match [] rest /\
  srt_to_text_content (pre ++ idx ++ 10%Z :: ts ++ 10%Z :: rest) = of_ascii "Chapter Hello"%string.
Proof.
  intros pre idx ts rest.
  assert (H : (10%Z ∉ pre) /\ is_uni_digit <$> last pre <> Some true /\ idx <> [] /\
              digits idx /\ timestamp_line ts)
    by (apply (bool_decide_unpack _); by vm_compute).
  destruct H as (H1 & H2 & H3 & H4 & H5).
  split; [done|]. split; [apply (sub_glues_index pre idx ts rest H1 H2 H3 H4 H5)|].
  by vm_compute.
Defined.

End Converter.
