(* ===== verification/TextIO.v ===== *)
(** * Reading a text file ([open(path, 'r', encoding='utf-8').read()])

    Line 6 opens the input in text mode: the bytes are decoded by the
    strict UTF-8 decoder of [Utf8], and the text layer in universal-newline
    mode ([IncrementalNewlineDecoder] with its [pendingcr] flag) turns
    ["\r\n"] and a lone ["\r"] into ["\n"].  [read_text] is what [read()]
    returns.

    The theorems: the text read is a valid [str] of scalar values without
    carriage returns, and a file with [\r\n], [\r] or [\n] line endings
    reads as the same lines ended by [\n]. *)

From Stdlib Require Import ZArith.
From stdpp Require Import base list.
From S2P Require Import Prelude Utf8.
Import Utf8.

Local Open Scope Z_scope.

Module TextIO.

(** ** Universal newlines *)

(** [pendingcr] is set after a carriage return; a line feed right after it
    is dropped. *)
Fixpoint translate_from (pendingcr : bool) (s : pystr) : pystr :=
  match s with
  | [] => []
  | c :: t =>
      if pendingcr && (c =? 10) then translate_from false t
      else if c =? 13 then 10 :: translate_from true t
      else c :: translate_from false t
  end.

Definition translate_newlines (s : pystr) : pystr := translate_from false s.

(** [open(path, 'r', encoding='utf-8').read()] on the file's bytes. *)
Definition read_text (bs : list Z) : decode_error + pystr :=
  match utf8_decode bs with
  | inr s => inr (translate_newlines s)
  | inl e => inl e
  end.

(** ** Newline translation *)

Lemma translate_no_cr_from (b : bool) (s : pystr) : 13 ∉ translate_from b s.
Proof.
  revert b. induction s as [|c t IH]; intros b; simpl; [apply not_elem_of_nil|].
  destruct (b && (c =? 10)); [done|].
  destruct (Z.eqb_spec c 13); rewrite elem_of_cons; intros [?|?]; try lia; by eapply IH.
Qed.

Lemma translate_plain (l r : pystr) :
  13 ∉ l -> translate_from false (l ++ r) = l ++ translate_from false r.
Proof.
  induction l as [|c l IH]; simpl; [done|]. rewrite elem_of_cons. intros Hn.
  destruct (Z.eqb_spec c 13); [subst; tauto|]. rewrite IH; [done|tauto].
Qed.

(** Lines ended by [eol]: a text file's content with that line ending. *)
Definition with_eol (eol : pystr) (ls : list pystr) : pystr := concat (map (fun l => l ++ eol) ls).

Lemma translate_crlf_lines (ls : list pystr) :
  Forall (fun l => 13 ∉ l) ls ->
  translate_from false (with_eol [13; 10] ls) = with_eol [10] ls.
Proof.
  induction 1 as [|l ls Hl _ IH]; [done|]. unfold with_eol in *. cbn [map concat].
  rewrite <- !app_assoc, translate_plain by done. cbn [app translate_from].
  by rewrite IH.
Qed.

Lemma translate_cr_lines (ls : list pystr) :
  Forall (fun l => (13 ∉ l) /\ (10 ∉ l)) ls ->
  translate_from false (with_eol [13] ls) = with_eol [10] ls.
Proof.
  intros Hls. cut (forall b, translate_from b (with_eol [13] ls) = with_eol [10] ls);
    [by intros ->|].
  induction Hls as [|l ls [Hl Hl'] _ IH]; intros b; [done|].
  unfold with_eol in *. cbn [map concat]. rewrite <- !app_assoc.
  destruct l as [|c l].
  - cbn [app translate_from]. destruct b; simpl; by rewrite IH.
  - rewrite !elem_of_cons in Hl, Hl'. cbn [app translate_from].
    destruct (Z.eqb_spec c 10), (Z.eqb_spec c 13); try (subst; tauto).
    rewrite andb_false_r. f_equal. rewrite translate_plain by tauto.
    simpl. by rewrite IH.
Qed.

Lemma translate_id (s : pystr) : 13 ∉ s -> translate_from false s = s.
Proof. intros H. rewrite <- (app_nil_r s) at 1. rewrite translate_plain by done. apply app_nil_r. Qed.

Lemma with_eol_no_cr (eol : pystr) (ls : list pystr) :
  13 ∉ eol -> Forall (fun l => 13 ∉ l) ls -> 13 ∉ with_eol eol ls.
Proof.
  intros He. induction 1 as [|l ls Hl _ IH]; [apply not_elem_of_nil|].
  unfold with_eol in *. cbn [map concat]. rewrite !elem_of_app. tauto.
Qed.

Lemma with_eol_scalar (eol : pystr) (ls : list pystr) :
  Forall scalar eol -> Forall (Forall scalar) ls -> Forall scalar (with_eol eol ls).
Proof.
  intros He. induction 1 as [|l ls Hl _ IH]; [constructor|].
  unfold with_eol in *. cbn [map concat]. rewrite !Forall_app. done.
Qed.

Lemma translate_elem_of (b : bool) (s : pystr) (x : Z) :
  x ∈ translate_from b s -> x = 10 \/ x ∈ s.
Proof.
  revert b. induction s as [|c t IH]; intros b; simpl; [by rewrite elem_of_nil|].
  rewrite elem_of_cons.
  destruct (b && (c =? 10)); [intros [|]%IH; tauto|].
  destruct (c =? 13); rewrite elem_of_cons; intros [->|[|]%IH]; tauto.
Qed.

(** The text read from bytes is made of scalar values. *)
Lemma read_text_scalar (bs : list Z) (s : pystr) :
  Forall is_byte bs -> read_text bs = inr s -> Forall scalar s.
Proof.
  intros Hb. unfold read_text. destruct (utf8_decode bs) as [|d] eqn:Hd; [done|].
  intros [= <-]. destruct (decode_from_ok bs 0 d Hb Hd) as [_ Hs].
  apply Forall_forall. intros x [->|Hx]%translate_elem_of.
  - apply ascii_scalar. lia.
  - by apply (proj1 (Forall_forall _ _) Hs).
Qed.

(** The newline translation never adds weight when a line feed weighs no
    more than a carriage return. *)
Lemma translate_weight (w : Z -> nat) (b : bool) (s : pystr) :
  (w 10%Z <= w 13%Z)%nat -> (weight w (translate_from b s) <= weight w s)%nat.
Proof.
  intros Hw. revert b. unfold weight.
  induction s as [|c t IH]; intros b; simpl; [lia|].
  destruct (b && (c =? 10)); [specialize (IH false); lia|].
  destruct (Z.eqb_spec c 13); simpl; [subst; specialize (IH true)|specialize (IH false)]; lia.
Qed.

(** Whatever the line ending of the file ([\r\n], [\r] or [\n]), the
    text read has its lines ended by [\n]. *)
Lemma read_text_eol (eol : pystr) (ls : list pystr) (bs : list Z) :
  eol = [13; 10] \/ eol = [13] \/ eol = [10] ->
  Forall (fun l => Forall scalar l /\ (13 ∉ l) /\ (10 ∉ l)) ls ->
  utf8_encode (with_eol eol ls) = Some bs ->
  read_text bs = inr (with_eol [10] ls).
Proof.
  intros Heol Hls He. unfold read_text.
  assert (Hsc : Forall scalar eol)
    by (destruct Heol as [->|[->| ->]]; repeat constructor; apply ascii_scalar; lia).
  assert (Hs : Forall (Forall scalar) ls)
    by (eapply Forall_impl; [exact Hls|]; by intros l [? _]).
  rewrite (decode_encode (with_eol eol ls) bs (with_eol_scalar eol ls Hsc Hs) He).
  f_equal. unfold translate_newlines.
  destruct Heol as [->|[->| ->]].
  - apply translate_crlf_lines. eapply Forall_impl; [exact Hls|]. by intros l (_ & ? & _).
  - apply translate_cr_lines. eapply Forall_impl; [exact Hls|]. by intros l (_ & ? & ?).
  - apply translate_id, with_eol_no_cr; [by rewrite list_elem_of_singleton|].
    eapply Forall_impl; [exact Hls|]. by intros l (_ & ? & _).
Qed.

(** A file starting with the UTF-8 byte order mark reads as U+FEFF
    followed by the rest: the ['utf-8'] codec (unlike ['utf-8-sig'])
    keeps the mark. *)
Lemma read_text_bom (bs : list Z) (s : pystr) :
  read_text (0xEF :: 0xBB :: 0xBF :: bs) = inr s -> exists s', s = 0xFEFF :: s'.
Proof.
  unfold read_text, utf8_decode. rewrite decode_step3; [|lia|reflexivity|reflexivity].
  destruct (utf8_decode_from _ bs) as [e|d]; simpl; [intros [=]|]. intros [= <-].
  unfold translate_newlines. cbn. by eexists.
Qed.

(** The text read holds no carriage return. *)
Lemma read_text_no_cr (bs : list Z) (s : pystr) : read_text bs = inr s -> 13 ∉ s.
Proof.
  unfold read_text. destruct (utf8_decode bs); [done|]. intros [= <-].
  apply translate_no_cr_from.
Qed.

(** C21: What [open(path, encoding='utf-8').read()] returns is a valid
    [str] of Unicode scalar values (no surrogate, nothing above U+10FFFF)
    in which every line ends with a line feed alone. *)
Theorem read_text_valid (bs : list Z) (s : pystr) :
  Forall is_byte bs -> read_text bs = inr s -> Forall scalar s /\ 13 ∉ s.
Proof.
  intros Hb Hr. split; [exact (read_text_scalar bs s Hb Hr)|exact (read_text_no_cr bs s Hr)].
Qed.

Lemma read_text_valid_witness :
  Forall is_byte [0xC3; 0xA9; 13; 10; 13] /\ read_text [0xC3; 0xA9; 13; 10; 13] = inr [0xE9; 10; 10] /\
  Forall scalar [0xE9; 10; 10] /\ 13 ∉ [0xE9; 10; 10].
Proof.
  assert (H1 : Forall is_byte [0xC3; 0xA9; 13; 10; 13])
    by (unfold is_byte; apply (bool_decide_unpack _); by vm_compute).
  assert (H2 : read_text [0xC3; 0xA9; 13; 10; 13] = inr [0xE9; 10; 10]) by (by vm_compute).
  split; [done|]. split; [done|]. exact (read_text_valid _ _ H1 H2).
Defined.

End TextIO.
