(* ===== verification/Driver.v ===== *)
(** * [main()] and the file I/O of [srt_to_text] (lines 5-7 and 29-47)

    The file system is an interface: the class [FileStore] gives reading a
    whole file and (over)writing one, each of which may raise one of the
    script's exceptions, and [FileStoreLaws] the read-after-write laws the
    theorems use.  [mem_fs], a [gmap] from paths to byte lists, is an
    instance (a file system with no permission or device errors), and
    [dir_fs] another, with directories that cannot be opened as files.

    [srt_to_text] reads and decodes the file, then runs
    [Converter.srt_to_text_content]; [main] is the script's entry point as
    a function from the argument vector and the file store to an
    [outcome]: the store after the run, the lines printed, the exit
    status.  [module_main] is the [__main__] guard, [stdout_text] what the
    [print] calls write, and [runs] the relation of repeated runs.  The
    theorems follow [main]'s branches (wrong argument count, missing file,
    undecodable input, unwritable output, success), bound the output's
    size, give the output file name, show that a byte order mark is
    written back, that a second run changes nothing, and that repeated
    runs never change a file whose name does not end in
    [_converted.txt]. *)

From Stdlib Require Import ZArith String.
From stdpp Require Import base list gmap.
From S2P Require Import Prelude PyStr Utf8 TextIO Converter.
Import Utf8 TextIO Converter.

Module Driver.

(** ** Exceptions and the file system *)

(** The exceptions the script meets: [open] on a missing path, the strict
    decoder, the encoder, and every other [OSError] of [open], [read] and
    [write]. *)
Inductive exn : Type :=
| FileNotFoundError
| UnicodeDecodeError (e : decode_error)
| UnicodeEncodeError
| OSError.

Class FileStore (F : Type) := {
  fs_read : F -> pystr -> exn + list Z;
  fs_write : F -> pystr -> list Z -> exn + F
}.

Class FileStoreLaws (F : Type) `{!FileStore F} : Prop := {
  read_after_write : forall f p bs f', fs_write f p bs = inr f' -> fs_read f' p = inr bs;
  read_other_write : forall f p q bs f',
    fs_write f p bs = inr f' -> q <> p -> fs_read f' q = fs_read f q
}.

(** ** What [main] prints and returns *)

Inductive message : Type :=
| MsgUsage                         (* line 31 *)
| MsgNotFound (input_file : pystr) (* line 45 *)
| MsgError (e : exn).              (* line 47 *)

(** The printed text.  [str(e)] of a [UnicodeDecodeError] is CPython's
    message; that of an [OSError] comes from the operating system's
    [strerror] and is left out. *)
Definition message_text (m : message) : pystr :=
  match m with
  | MsgUsage => of_ascii "Usage: python script.py <path_to_srt_file>"
  | MsgNotFound p => of_ascii "Error: The file '" ++ p ++ of_ascii "' was not found."
  | MsgError (UnicodeDecodeError e) => of_ascii "An error occurred: " ++ decode_error_str e
  | MsgError _ => of_ascii "An error occurred: "
  end.

Record outcome (F : Type) : Type := {
  fs_after : F;
  printed : list message;
  exit_status : Z
}.
Arguments fs_after {F}. Arguments printed {F}. Arguments exit_status {F}.

(** Line 40: [input_file.rsplit('.', 1)[0] + '_converted.txt'].  [rsplit]
    never returns an empty list. *)
Definition output_path (input_file : pystr) : pystr :=
  match Str.rsplit1 46 input_file with
  | base :: _ => base ++ of_ascii "_converted.txt"
  | [] => of_ascii "_converted.txt"
  end.

(** The two [except] clauses of lines 44-47. *)
Definition report (input_file : pystr) (e : exn) : message :=
  match e with
  | FileNotFoundError => MsgNotFound input_file
  | _ => MsgError e
  end.

Section Script.
Context {F : Type} `{!FileStore F}.

(** Lines 5-26: [open(file_path, 'r', encoding='utf-8')] and [read()],
    then the conversion of the text. *)
Definition srt_to_text (fs : F) (file_path : pystr) : exn + pystr :=
  match fs_read fs file_path with
  | inl e => inl e
  | inr bs =>
      match read_text bs with
      | inl e => inl (UnicodeDecodeError e)
      | inr content => inr (srt_to_text_content content)
      end
  end.

(** Lines 41-42: [open(output_file, 'w', encoding='utf-8')] truncates
    the file, then [write] encodes the text; an exception leaves the
    truncated file behind. *)
Definition write_text (fs : F) (path text : pystr) : F * option exn :=
  match fs_write fs path [] with
  | inl e => (fs, Some e)
  | inr fs1 =>
      match utf8_encode text with
      | None => (fs1, Some UnicodeEncodeError)
      | Some bs =>
          match fs_write fs1 path bs with
          | inl e => (fs1, Some e)
          | inr fs2 => (fs2, None)
          end
      end
  end.

(** Lines 29-47; [sys.exit(1)] is the exit status 1, a normal return
    the status 0. *)
Definition main (argv : list pystr) (fs : F) : outcome F :=
  if negb (length argv =? 2)%nat then
    {| fs_after := fs; printed := [MsgUsage]; exit_status := 1 |}
  else
    let input_file := nth 1 argv [] in
    match srt_to_text fs input_file with
    | inl e => {| fs_after := fs; printed := [report input_file e]; exit_status := 0 |}
    | inr output_text =>
        let output_file := output_path input_file in
        match write_text fs output_file output_text with
        | (fs', None) => {| fs_after := fs'; printed := []; exit_status := 0 |}
        | (fs', Some e) =>
            {| fs_after := fs'; printed := [report input_file e]; exit_status := 0 |}
        end
    end.
(** Lines 50-51: [if __name__ == "__main__": main()]; imported as a module
    the script does nothing. *)
Definition module_main (name : pystr) (argv : list pystr) (fs : F) : outcome F :=
  if bool_decide (name = of_ascii "__main__") then main argv fs
  else {| fs_after := fs; printed := []; exit_status := 0 |}.

(** Running the script again and again on the same file system: each step
    is one process with its own argument vector. *)
Inductive runs : F -> F -> Prop :=
| runs_none fs : runs fs fs
| runs_more argv fs fs' : runs (fs_after (main argv fs)) fs' -> runs fs fs'.
End Script.

(** What [print] writes to standard output: each message and a newline. *)
Definition stdout_text {F : Type} (o : outcome F) : pystr :=
  concat (map (fun m => message_text m ++ [10%Z]) (printed o)).

(** A name the script can write to: one that ends in [_converted.txt]. *)
Definition converted_name (q : pystr) : Prop := exists b, q = b ++ of_ascii "_converted.txt".

(** ** An in-memory file system *)

Abbreviation mem_fs := (gmap pystr (list Z)).

#[export] Instance mem_fs_store : FileStore mem_fs := {
  fs_read f p := match f !! p with Some bs => inr bs | None => inl FileNotFoundError end;
  fs_write f p bs := inr (<[p := bs]> f)
}.

#[export] Instance mem_fs_laws : FileStoreLaws mem_fs.
Proof.
  split; intros f p *; cbn -[lookup insert]; intros [= <-].
  - by rewrite lookup_insert_eq.
  - intros Hq. by rewrite lookup_insert_ne by done.
Qed.

(** ** A file system with directories *)

(** Files and directories: [open] on a directory, for reading or for
    writing, raises [IsADirectoryError], an [OSError]. *)
Record dir_fs : Type := {
  df_files : gmap pystr (list Z);
  df_dirs : gset pystr
}.

#[export] Instance dir_fs_store : FileStore dir_fs := {
  fs_read f p :=
    if decide (p ∈ df_dirs f) then inl OSError
    else match df_files f !! p with Some bs => inr bs | None => inl FileNotFoundError end;
  fs_write f p bs :=
    if decide (p ∈ df_dirs f) then inl OSError
    else inr {| df_files := <[p := bs]> (df_files f); df_dirs := df_dirs f |}
}.

#[export] Instance dir_fs_laws : FileStoreLaws dir_fs.
Proof.
  split; intros f p *; cbn -[lookup insert]; case_decide; intros [= <-]; simpl.
  - rewrite decide_False by done. by rewrite lookup_insert_eq.
  - intros Hq. case_decide; [done|]. by rewrite lookup_insert_ne by done.
Qed.

(** ** Lemmas *)

(** The suffix [_converted.txt] starts with an underscore, not a dot. *)
Lemma converted_head : exists r, of_ascii "_converted.txt" = 95%Z :: r.
Proof. by eexists. Qed.

Lemma output_scalar (content : pystr) :
  Forall scalar content -> Forall scalar (srt_to_text_content content).
Proof.
  intros Hs. apply Forall_forall. intros x [->|Hx]%srt_to_text_chars.
  - apply ascii_scalar. lia.
  - by apply (proj1 (Forall_forall _ _) Hs).
Qed.

Lemma output_no_cr (content : pystr) :
  13%Z ∉ content -> 13%Z ∉ srt_to_text_content content.
Proof. intros Hn [Hx|Hx]%srt_to_text_chars; [lia|done]. Qed.

(** A document's lines: for each cue its index, its timestamp line, its
    text lines and the empty line that ends it. *)
Definition doc_lines (cs : list cue) : list pystr :=
  concat (map (fun c => cue_index c :: cue_times c :: cue_text c ++ [[]]) cs).

Lemma render_doc_lines (cs : list cue) : render cs = with_eol [10%Z] (doc_lines cs).
Proof.
  induction cs as [|c cs IH]; [done|].
  unfold render, doc_lines, with_eol in *. cbn [map concat]. rewrite IH.
  rewrite map_app, concat_app. unfold render_cue, terminated.
  cbn [map concat]. rewrite map_app, concat_app. cbn [map concat]. by app_norm.
Qed.

(** Writing [path] leaves every other file as it was, whether the write
    succeeds or not. *)
Lemma write_text_frame `{FileStoreLaws F} (fs : F) (path text q : pystr) :
  q <> path -> fs_read (fst (write_text fs path text)) q = fs_read fs q.
Proof.
  intros Hq. unfold write_text.
  destruct (fs_write fs path []) as [e|fs1] eqn:H1; [done|].
  rewrite <- (read_other_write _ _ _ _ _ H1 Hq).
  destruct (utf8_encode text) as [bs|]; [|done].
  destruct (fs_write fs1 path bs) as [e|fs2] eqn:H2; [done|].
  exact (read_other_write _ _ _ _ _ H2 Hq).
Qed.

(** One run of [main] changes no file but its output file. *)
Lemma main_frame `{FileStoreLaws F} (argv : list pystr) (fs : F) (q : pystr) :
  q <> output_path (nth 1 argv []) -> fs_read (fs_after (main argv fs)) q = fs_read fs q.
Proof.
  intros Hq. unfold main. destruct (negb _); [done|].
  destruct (srt_to_text fs (nth 1 argv [])) as [e|out]; [done|].
  pose proof (write_text_frame fs (output_path (nth 1 argv [])) out q Hq) as Hf.
  by destruct (write_text fs _ out) as [fs' [e|]].
Qed.

Lemma output_path_converted (p : pystr) : converted_name (output_path p).
Proof. unfold output_path. destruct (Str.rsplit1 46 p) as [|b ?]; [by exists []|by exists b]. Qed.

(** ** The output file name *)

(** C28: The output name is the input name up to its last dot, followed by
    [_converted.txt]: the last dot of the whole path, which may lie in a
    directory name. *)
Theorem output_path_last_dot (a b : pystr) :
  46%Z ∉ b -> output_path (a ++ 46%Z :: b) = a ++ of_ascii "_converted.txt".
Proof.
  intros Hb. unfold output_path.
  destruct (Str.rsplit1_spec 46 (a ++ 46%Z :: b)) as [[_ Hn]|(a' & b' & -> & Heq & Hb')].
  - exfalso. apply Hn. rewrite elem_of_app, elem_of_cons. auto.
  - destruct (app_sep_unique_r (fun c => c <> 46%Z) a a' b b' 46%Z) as [<- _];
      [tauto|by apply not_elem_of_Forall_neq|by apply not_elem_of_Forall_neq|done|done].
Qed.

Lemma output_path_last_dot_witness :
  (46%Z ∉ of_ascii "d/movie") /\
  output_path (of_ascii "dir" ++ 46%Z :: of_ascii "d/movie") = of_ascii "dir_converted.txt" /\
  output_path (of_ascii "movie.en.srt") = of_ascii "movie.en_converted.txt" /\
  output_path (of_ascii "./movie") = of_ascii "_converted.txt".
Proof.
  assert (H : 46%Z ∉ of_ascii "d/movie") by (apply (bool_decide_unpack _); by vm_compute).
  split; [done|]. split; [rewrite (output_path_last_dot _ _ H); by vm_compute|].
  split; by vm_compute.
Defined.

(** The suffix makes the output name differ from the input name. *)
Lemma output_path_fresh (p : pystr) : output_path p <> p.
Proof.
  unfold output_path. destruct converted_head as [r ->].
  destruct (Str.rsplit1_spec 46 p) as [[-> _]|(a & b & -> & Hp & _)].
  - intros Heq. apply (f_equal length) in Heq. rewrite length_app in Heq. simpl in Heq. lia.
  - rewrite Hp. intros Heq. apply app_inv_head in Heq. discriminate.
Qed.

(** C29: The output file is never the input file. *)
Theorem output_path_ne (p : pystr) : output_path p <> p.
Proof. apply output_path_fresh. Qed.

(** ** The branches of [main] *)

Section MainTheorems.
Context {F : Type} `{!FileStore F, !FileStoreLaws F}.

(** C24: With an argument count other than one, [main] prints the usage
    line and exits with status 1, and no file is touched. *)
Theorem main_usage (argv : list pystr) (fs : F) :
  length argv <> 2%nat ->
  main argv fs = {| fs_after := fs; printed := [MsgUsage]; exit_status := 1 |}.
Proof. intros Hn. unfold main. by rewrite (proj2 (Nat.eqb_neq _ _) Hn). Qed.

(** C25: A missing input file: the not-found message naming it, a normal
    exit, and no file written. *)
Theorem main_not_found (a p : pystr) (fs : F) :
  fs_read fs p = inl FileNotFoundError ->
  main [a; p] fs = {| fs_after := fs; printed := [MsgNotFound p]; exit_status := 0 |}.
Proof. intros Hr. unfold main, srt_to_text. simpl. by rewrite Hr. Qed.

(** C26: An input that is not UTF-8: the generic message with the
    decoder's [UnicodeDecodeError], a normal exit, and no file written. *)
Theorem main_decode_error (a p : pystr) (fs : F) (bs : list Z) (e : decode_error) :
  fs_read fs p = inr bs -> utf8_decode bs = inl e ->
  main [a; p] fs =
  {| fs_after := fs; printed := [MsgError (UnicodeDecodeError e)]; exit_status := 0 |}.
Proof. intros Hr Hd. unfold main, srt_to_text, read_text. simpl. by rewrite Hr, Hd. Qed.

(** The branch of a successful conversion with a writable output path. *)
Lemma main_writes (a p : pystr) (fs : F) (t : pystr) (obs : list Z) :
  srt_to_text fs p = inr t -> utf8_encode t = Some obs ->
  (forall f out, exists f', fs_write f (output_path p) out = inr f') ->
  exists fs', main [a; p] fs = {| fs_after := fs'; printed := []; exit_status := 0 |} /\
    fs_read fs' (output_path p) = inr obs /\
    forall q, q <> output_path p -> fs_read fs' q = fs_read fs q.
Proof.
  intros Hs He Hw. destruct (Hw fs []) as [f1 Hf1]. destruct (Hw f1 obs) as [f2 Hf2].
  exists f2. split; [unfold main, write_text; simpl; by rewrite Hs, Hf1, He, Hf2|].
  split; [by eapply read_after_write|]. intros q Hq.
  rewrite (read_other_write _ _ _ _ _ Hf2 Hq). exact (read_other_write _ _ _ _ _ Hf1 Hq).
Qed.

(** What a file holds after [write_text] to a writable path: the encoded
    text (the truncated, empty file when the text cannot be encoded). *)
Lemma write_text_read (fs : F) (path text q : pystr) :
  (forall f out, exists f', fs_write f path out = inr f') ->
  fs_read (fst (write_text fs path text)) q =
  if bool_decide (q = path) then inr (default [] (utf8_encode text)) else fs_read fs q.
Proof.
  intros Hw. case_bool_decide as Hq; [subst q|by apply write_text_frame].
  unfold write_text. destruct (Hw fs []) as [f1 Hf1]. rewrite Hf1.
  destruct (utf8_encode text) as [bs|]; simpl; [|by eapply read_after_write].
  destruct (Hw f1 bs) as [f2 Hf2]. rewrite Hf2. by eapply read_after_write.
Qed.

(** C2: Success: when the input decodes and the output path is writable,
    [main] prints nothing, exits normally, and writes to [output_path p]
    the UTF-8 encoding of the converted text (which always exists), which
    reads back as that text; no other file changes. *)
Theorem main_success (a p : pystr) (fs : F) (bs : list Z) (content : pystr) :
  fs_read fs p = inr bs -> Forall is_byte bs -> read_text bs = inr content ->
  (forall f out, exists f', fs_write f (output_path p) out = inr f') ->
  exists fs' obs,
    main [a; p] fs = {| fs_after := fs'; printed := []; exit_status := 0 |} /\
    utf8_encode (srt_to_text_content content) = Some obs /\
    fs_read fs' (output_path p) = inr obs /\
    read_text obs = inr (srt_to_text_content content) /\
    forall q, q <> output_path p -> fs_read fs' q = fs_read fs q.
Proof.
  intros Hr Hb Ht Hw.
  pose proof (output_scalar content (read_text_scalar bs content Hb Ht)) as Hsc.
  destruct (encode_decode_from _ Hsc 0) as (obs & He & _ & Hd).
  destruct (main_writes a p fs (srt_to_text_content content) obs) as (fs' & Hm & Hrd & Hfr);
    [unfold srt_to_text; by rewrite Hr, Ht|done|done|].
  exists fs', obs. do 3 (split; [done|]). split; [|done].
  unfold read_text, utf8_decode. rewrite Hd. f_equal.
  by apply translate_id, output_no_cr, (read_text_no_cr bs).
Qed.

(** C7: A subtitle document stored with [\r\n], [\r] or [\n] line endings
    converts to the same text as its [\n] rendering. *)
Theorem srt_to_text_any_eol (fs : F) (p eol : pystr) (cs : list cue) (bs : list Z) :
  eol = [13; 10]%Z \/ eol = [13%Z] \/ eol = [10%Z] ->
  Forall (fun l => Forall scalar l /\ (13%Z ∉ l) /\ (10%Z ∉ l)) (doc_lines cs) ->
  fs_read fs p = inr bs -> utf8_encode (with_eol eol (doc_lines cs)) = Some bs ->
  srt_to_text fs p = inr (srt_to_text_content (render cs)).
Proof.
  intros Heol Hls Hr He. unfold srt_to_text.
  by rewrite Hr, (read_text_eol eol _ bs Heol Hls He), render_doc_lines.
Qed.
(** C13: The output is never larger than the input: when [srt_to_text]
    succeeds on a file of [n] bytes, its result encodes to at most [n]
    bytes. *)
Theorem srt_to_text_output_bytes_le (fs : F) (p : pystr) (bs : list Z) (out : pystr) :
  fs_read fs p = inr bs -> Forall is_byte bs -> srt_to_text fs p = inr out ->
  exists obs, utf8_encode out = Some obs /\ (length obs <= length bs)%nat.
Proof.
  intros Hr Hb. unfold srt_to_text. rewrite Hr.
  destruct (read_text bs) as [|content] eqn:Ht; [done|]. intros [= <-].
  pose proof (output_scalar content (read_text_scalar bs content Hb Ht)) as Hsc.
  destruct (encode_decode_from _ Hsc 0) as (obs & He & _). exists obs. split; [done|].
  unfold read_text in Ht. destruct (utf8_decode bs) as [|d] eqn:Hd; [done|].
  injection Ht as <-. destruct (decode_from_ok bs 0 d Hb Hd) as [Hed _].
  rewrite (encode_length _ _ He), (encode_length _ _ Hed).
  etransitivity; [apply srt_to_text_weight; by vm_compute|].
  apply translate_weight. by vm_compute.
Qed.
(** C23: [main] prints at most one line, and its exit status is 1 exactly
    when it printed the usage line for a wrong argument count, 0
    otherwise. *)
Theorem main_exit_status (argv : list pystr) (fs : F) :
  (length (printed (main argv fs)) <= 1)%nat /\ 
  ((exit_status (main argv fs) = 1%Z /\ printed (main argv fs) = [MsgUsage] /\ 
      length argv <> 2%nat) \/
   (exit_status (main argv fs) = 0%Z /\ length argv = 2%nat)).
Proof.
  unfold main. destruct (Nat.eqb_spec (length argv) 2) as [H2|H2]; simpl.
  - destruct (srt_to_text fs (nth 1 argv [])) as [e|out]; [simpl; auto|].
    destruct (write_text fs _ out) as [fs' [e|]]; simpl; auto.
  - split; [lia|]. left. auto.
Qed.

(** C8: Whatever sequence of runs of the script, a file whose name does
    not end in [_converted.txt] is never changed: the subtitle files the
    script reads are preserved. *)
Theorem runs_preserve_inputs (fs fs' : F) :
  runs fs fs' -> forall q, ~ converted_name q -> fs_read fs' q = fs_read fs q.
Proof.
  induction 1 as [fs|argv fs fs' _ IH]; intros q Hq; [done|].
  rewrite (IH q Hq). apply main_frame. intros ->. apply Hq, output_path_converted.
Qed.
(** C10: Running the script a second time on the same file changes
    nothing: the input is still there, unchanged, and the output file is
    truncated and written with the same text again (a file opened for
    appending would grow instead). *)
Theorem main_rerun (a p : pystr) (fs : F) :
  (forall f out, exists f', fs_write f (output_path p) out = inr f') ->
  forall q, fs_read (fs_after (main [a; p] (fs_after (main [a; p] fs)))) q =
            fs_read (fs_after (main [a; p] fs)) q.
Proof.
  intros Hw q.
  assert (Hrun : forall f, fs_after (main [a; p] f) =
    match srt_to_text f p with inl _ => f | inr t => fst (write_text f (output_path p) t) end).
  { intros f. unfold main. simpl. destruct (srt_to_text f p); [done|].
    by destruct (write_text _ _ _) as [? [|]]. }
  assert (Hsame : srt_to_text (fs_after (main [a; p] fs)) p = srt_to_text fs p).
  { unfold srt_to_text. rewrite (main_frame [a; p] fs p); [done|]. apply not_eq_sym, output_path_fresh. }
  rewrite (Hrun (fs_after _)), Hsame, (Hrun fs).
  destruct (srt_to_text fs p) as [e|t]; [done|].
  rewrite !write_text_read by done. by case_bool_decide.
Qed.

(** C27: When the output file cannot be opened for writing (it is a
    directory, or the directory is not writable), the error goes to the
    [except] clauses: the generic message (or the not-found message naming
    the input), a normal exit, and no file changed. *)
Theorem main_write_error (a p : pystr) (fs : F) (t : pystr) (e : exn) :
  srt_to_text fs p = inr t -> fs_write fs (output_path p) [] = inl e ->
  main [a; p] fs = {| fs_after := fs; printed := [report p e]; exit_status := 0 |}.
Proof. intros Hs Hw. unfold main, write_text. simpl. by rewrite Hs, Hw. Qed.

(** C15: A file that starts with a UTF-8 byte order mark keeps it: the
    ['utf-8'] codec decodes it to U+FEFF, which is neither a digit nor
    whitespace for [strip()], so the output file starts with the same
    three bytes, glued to the first text line. *)
Theorem main_keeps_bom (a p : pystr) (fs : F) (bs : list Z) (content : pystr) :
  fs_read fs p = inr (0xEF :: 0xBB :: 0xBF :: bs)%Z ->
  Forall is_byte (0xEF :: 0xBB :: 0xBF :: bs)%Z ->
  read_text (0xEF :: 0xBB :: 0xBF :: bs)%Z = inr content ->
  (forall f out, exists f', fs_write f (output_path p) out = inr f') ->
  exists fs' obs, main [a; p] fs = {| fs_after := fs'; printed := []; exit_status := 0 |} /\
    fs_read fs' (output_path p) = inr (0xEF :: 0xBB :: 0xBF :: obs)%Z.
Proof.
  intros Hr Hb Ht Hw.
  pose proof (output_scalar _ (read_text_scalar _ _ Hb Ht)) as Hsc.
  destruct (read_text_bom _ _ Ht) as [c ->].
  destruct (srt_to_text_lead 0xFEFF%Z c) as [t Hl]; [by vm_compute|by vm_compute|].
  rewrite Hl in Hsc. inv Hsc as [|? ? _ Hsc'].
  destruct (encode_decode_from _ Hsc' 0) as (obs & He & _).
  destruct (main_writes a p fs (0xFEFF :: t)%Z (0xEF :: 0xBB :: 0xBF :: obs)%Z)
    as (fs' & Hm & Hrd & _); [unfold srt_to_text; by rewrite Hr, Ht, Hl|simpl; by rewrite He|done|].
  by exists fs', obs.
Qed.
End MainTheorems.

(** ** Runs on the in-memory file system *)

Definition store_with (bs : list Z) : mem_fs := {[ of_ascii "movie.srt" := bs ]}.

Definition argv_movie : list pystr := [of_ascii "srt_clean.py"; of_ascii "movie.srt"].

(** The document of the design notes, with [\r\n] line endings. *)
Definition crlf_bytes : list Z :=
  match utf8_encode (with_eol [13; 10]%Z (doc_lines spec_example)) with
  | Some bs => bs
  | None => []
  end.

Lemma main_usage_witness_stdout :
  stdout_text (main [of_ascii "srt_clean.py"] (∅ : mem_fs)) =
  of_ascii "Usage: python script.py <path_to_srt_file>" ++ [10%Z] /\
  module_main (of_ascii "srt_clean") argv_movie (∅ : mem_fs) =
  {| fs_after := ∅; printed := []; exit_status := 0 |}.
Proof. split; by vm_compute. Defined.

Lemma main_usage_witness :
  length [of_ascii "srt_clean.py"] <> 2%nat /\
  main [of_ascii "srt_clean.py"] (∅ : mem_fs) =
  {| fs_after := ∅; printed := [MsgUsage]; exit_status := 1 |}.
Proof. split; [simpl; lia|]. apply main_usage. simpl. lia. Defined.

Lemma main_not_found_witness :
  fs_read (∅ : mem_fs) (of_ascii "movie.srt") = inl FileNotFoundError /\
  main argv_movie (∅ : mem_fs) =
  {| fs_after := ∅; printed := [MsgNotFound (of_ascii "movie.srt")]; exit_status := 0 |}.
Proof.
  assert (H : fs_read (∅ : mem_fs) (of_ascii "movie.srt") = inl FileNotFoundError)
    by reflexivity.
  split; [done|]. by apply main_not_found.
Defined.

(** [b'ab\xe2\x82\xacX\xff']: CPython prints [An error occurred: 'utf-8'
    codec can't decode byte 0xff in position 6: invalid start byte]. *)
Lemma main_decode_error_witness :
  let bs := [97; 98; 0xE2; 0x82; 0xAC; 88; 0xFF]%Z in
  let e := {| err_start := 6; err_end := 7; err_byte := 0xFF; err_reason := InvalidStartByte |} in
  fs_read (store_with bs) (of_ascii "movie.srt") = inr bs /\
  utf8_decode bs = inl e /\
  main argv_movie (store_with bs) =
  {| fs_after := store_with bs; printed := [MsgError (UnicodeDecodeError e)];
     exit_status := 0 |} /\
  stdout_text (main argv_movie (store_with bs)) =
  of_ascii "An error occurred: 'utf-8' codec can't decode byte 0xff in position 6: invalid start byte"
  ++ [10%Z].
Proof.
  intros bs e.
  assert (H1 : fs_read (store_with bs) (of_ascii "movie.srt") = inr bs) by (by vm_compute).
  assert (H2 : utf8_decode bs = inl e) by (by vm_compute).
  split; [done|]. split; [done|]. split; [by apply (main_decode_error _ _ _ _ _ H1 H2)|].
  by vm_compute.
Defined.

Lemma main_success_witness :
  let bs := render spec_example in
  fs_read (store_with bs) (of_ascii "movie.srt") = inr bs /\ Forall is_byte bs /\
  read_text bs = inr bs /\
  exists fs' obs,
    main argv_movie (store_with bs) = {| fs_after := fs'; printed := []; exit_status := 0 |} /\
    utf8_encode (srt_to_text_content bs) = Some obs /\
    fs_read fs' (output_path (of_ascii "movie.srt")) = inr obs /\
    read_text obs = inr (srt_to_text_content bs) /\
    forall q, q <> output_path (of_ascii "movie.srt") -> fs_read fs' q = fs_read (store_with bs) q.
Proof.
  intros bs.
  assert (H1 : fs_read (store_with bs) (of_ascii "movie.srt") = inr bs) by (by vm_compute).
  assert (H2 : Forall is_byte bs)
    by (unfold is_byte; apply (bool_decide_unpack _); by vm_compute).
  assert (H3 : read_text bs = inr bs) by (by vm_compute).
  split; [done|]. split; [done|]. split; [done|].
  apply (main_success _ _ _ _ _ H1 H2 H3). intros f out. by eexists.
Defined.

Lemma srt_to_text_any_eol_witness :
  ([13; 10]%Z = [13; 10]%Z \/ [13; 10]%Z = [13%Z] \/ [13; 10]%Z = [10%Z]) /\
  Forall (fun l => Forall scalar l /\ (13%Z ∉ l) /\ (10%Z ∉ l)) (doc_lines spec_example) /\
  fs_read (store_with crlf_bytes) (of_ascii "movie.srt") = inr crlf_bytes /\
  utf8_encode (with_eol [13; 10]%Z (doc_lines spec_example)) = Some crlf_bytes /\
  srt_to_text (store_with crlf_bytes) (of_ascii "movie.srt") =
  inr (of_ascii "Hello world Goodbye").
Proof.
  assert (H0 : [13; 10]%Z = [13; 10]%Z \/ [13; 10]%Z = [13%Z] \/ [13; 10]%Z = [10%Z])
    by (by left).
  assert (H1 : Forall (fun l => Forall scalar l /\ (13%Z ∉ l) /\ (10%Z ∉ l))
                 (doc_lines spec_example))
    by (unfold scalar; apply (bool_decide_unpack _); by vm_compute).
  assert (H2 : fs_read (store_with crlf_bytes) (of_ascii "movie.srt") = inr crlf_bytes)
    by (by vm_compute).
  assert (H3 : utf8_encode (with_eol [13; 10]%Z (doc_lines spec_example)) = Some crlf_bytes)
    by (by vm_compute).
  split; [done|]. split; [done|]. split; [done|]. split; [done|].
  rewrite (srt_to_text_any_eol _ _ _ _ _ H0 H1 H2 H3). by vm_compute.
Defined.

Lemma srt_to_text_output_bytes_le_witness :
  let bs := render spec_example in
  fs_read (store_with bs) (of_ascii "movie.srt") = inr bs /\ Forall is_byte bs /\
  srt_to_text (store_with bs) (of_ascii "movie.srt") = inr (of_ascii "Hello world Goodbye") /\
  exists obs, utf8_encode (of_ascii "Hello world Goodbye") = Some obs /\
    (length obs <= length bs)%nat.
Proof.
  intros bs.
  assert (H1 : fs_read (store_with bs) (of_ascii "movie.srt") = inr bs) by (by vm_compute).
  assert (H2 : Forall is_byte bs)
    by (unfold is_byte; apply (bool_decide_unpack _); by vm_compute).
  assert (H3 : srt_to_text (store_with bs) (of_ascii "movie.srt") =
               inr (of_ascii "Hello world Goodbye")) by (by vm_compute).
  split; [done|]. split; [done|]. split; [done|].
  exact (srt_to_text_output_bytes_le _ _ _ _ H1 H2 H3).
Defined.

(** Two runs: the conversion of [movie.srt], then of its output. *)
Lemma runs_preserve_inputs_witness :
  let fs0 := store_with (render spec_example) in
  let fs1 := fs_after (main argv_movie fs0) in
  let fs2 := fs_after (main [of_ascii "srt_clean.py"; of_ascii "movie_converted.txt"] fs1) in
  runs fs0 fs2 /\ ~ converted_name (of_ascii "movie.srt") /\
  fs_read fs2 (of_ascii "movie.srt") = fs_read fs0 (of_ascii "movie.srt") /\
  fs_read fs2 (of_ascii "movie_converted_converted.txt") = inr (of_ascii "Hello world Goodbye").
Proof.
  intros fs0 fs1 fs2.
  assert (Hr : runs fs0 fs2)
    by (apply (runs_more argv_movie),
          (runs_more [of_ascii "srt_clean.py"; of_ascii "movie_converted.txt"]), runs_none).
  assert (Hn : ~ converted_name (of_ascii "movie.srt")).
  { intros [b Hb]. apply (f_equal length) in Hb. rewrite length_app in Hb. simpl in Hb. lia. }
  split; [done|]. split; [done|]. split; [exact (runs_preserve_inputs _ _ Hr _ Hn)|].
  by vm_compute.
Defined.

(** Converting twice: the second run finds the same input and writes the
    same output. *)
Lemma main_rerun_witness :
  let fs0 := store_with (render spec_example) in
  (forall (f : mem_fs) out, exists f', fs_write f (output_path (of_ascii "movie.srt")) out = inr f') /\
  (forall q, fs_read (fs_after (main argv_movie (fs_after (main argv_movie fs0)))) q =
             fs_read (fs_after (main argv_movie fs0)) q) /\
  fs_read (fs_after (main argv_movie fs0)) (of_ascii "movie_converted.txt") =
    inr (of_ascii "Hello world Goodbye").
Proof.
  intros fs0.
  assert (Hw : forall (f : mem_fs) out, exists f',
            fs_write f (output_path (of_ascii "movie.srt")) out = inr f') by (intros f out; by eexists).
  split; [done|]. split; [exact (main_rerun _ _ fs0 Hw)|]. by vm_compute.
Defined.

(** The output name is taken by a directory. *)
Definition dir_store : dir_fs := {|
  df_files := {[ of_ascii "movie.srt" := render spec_example ]};
  df_dirs := {[ of_ascii "movie_converted.txt" ]}
|}.

Lemma main_write_error_witness :
  srt_to_text dir_store (of_ascii "movie.srt") = inr (of_ascii "Hello world Goodbye") /\
  fs_write dir_store (output_path (of_ascii "movie.srt")) [] = inl OSError /\
  main argv_movie dir_store =
    {| fs_after := dir_store; printed := [MsgError OSError]; exit_status := 0 |}.
Proof.
  assert (H1 : srt_to_text dir_store (of_ascii "movie.srt") = inr (of_ascii "Hello world Goodbye"))
    by (by vm_compute).
  assert (H2 : fs_write dir_store (output_path (of_ascii "movie.srt")) [] = inl OSError)
    by (by vm_compute).
  split; [done|]. split; [done|]. exact (main_write_error _ _ _ _ _ H1 H2).
Defined.

(** The same cue twice, after a byte order mark: the mark is written back
    and glued to the first line, which then differs from the second. *)
Definition bom_doc : pystr :=
  unlines ["1"; "00:00:01,000 --> 00:00:02,000"; "Hello"; "";
           "2"; "00:00:03,000 --> 00:00:04,000"; "Hello"; ""]%string.

Lemma main_keeps_bom_witness :
  let fs0 := store_with ([0xEF; 0xBB; 0xBF]%Z ++ bom_doc) in
  fs_read fs0 (of_ascii "movie.srt") = inr (0xEF :: 0xBB :: 0xBF :: bom_doc)%Z /\
  Forall is_byte (0xEF :: 0xBB :: 0xBF :: bom_doc)%Z /\
  read_text (0xEF :: 0xBB :: 0xBF :: bom_doc)%Z = inr (0xFEFF :: bom_doc)%Z /\
  (exists fs' obs, main argv_movie fs0 = {| fs_after := fs'; printed := []; exit_status := 0 |} /\
     fs_read fs' (output_path (of_ascii "movie.srt")) = inr (0xEF :: 0xBB :: 0xBF :: obs)%Z) /\
  fs_read (fs_after (main argv_movie fs0)) (of_ascii "movie_converted.txt") =
    inr ([0xEF; 0xBB; 0xBF]%Z ++ of_ascii "Hello Hello").
Proof.
  intros fs0.
  assert (H1 : fs_read fs0 (of_ascii "movie.srt") = inr (0xEF :: 0xBB :: 0xBF :: bom_doc)%Z)
    by (by vm_compute).
  assert (H2 : Forall is_byte (0xEF :: 0xBB :: 0xBF :: bom_doc)%Z)
    by (unfold is_byte; apply (bool_decide_unpack _); by vm_compute).
  assert (H3 : read_text (0xEF :: 0xBB :: 0xBF :: bom_doc)%Z = inr (0xFEFF :: bom_doc)%Z)
    by (by vm_compute).
  split; [done|]. split; [done|]. split; [done|].
  split; [apply (main_keeps_bom _ _ _ _ _ H1 H2 H3); intros f out; by eexists|].
  by vm_compute.
Defined.

End Driver.
